(** * Turn-taking core of the voice assistant

    A shallow embedding of the audio recorder (voice-activity endpointing),
    the wake-word trigger, the text-to-speech playback sink, the conversation
    history and the assistant's turn handler, followed by the properties
    established about them.

    Conventions.
    - Durations are whole milliseconds, read off the source's floats by
      truncation: [silence_duration_ms] is [int(self.silence_duration * 1000)]
      and [max_duration_ms] is [int(max_duration * 1000)], the products being
      taken in binary64 as Python takes them (0.9 s is 900, 2.01 s is 2009:
      the product is 2009.9999999999998).  The source's frame counts are
      [int(p / f)] for such a product [p] and the integer frame duration [f];
      in binary64 the rounded quotient never reaches the next whole number
      while [p] is below the next multiple of [f], so this is the integer
      quotient of [int(p)] by [f], truncated towards zero: [Z.quot].  Module
      [Durations] computes the source's expressions in binary64 and
      [DurationFacts] compares them with the quotients used here.
    - External collaborators (the microphone stream, the voice-activity
      classifier, the keyword engine, speech recognition, the language model,
      synthesis and the mixer) are inputs of the functions that use them.
    - Text is a Python [str] whose characters have code points below 256,
      one [ascii] per character, with [str.lower], [str.strip] and
      [str.isspace] as Python defines them on that range. *)

From Stdlib Require Import String Ascii ZArith Bool Lia QArith List.
From Stdlib Require SpecFloat.
Import ListNotations.

Local Open Scope Z_scope.

(* ================================================================== *)
(** ** src/audio/recorder.py *)
(* ================================================================== *)

Module Recorder.

Definition bytes := list Byte.byte.

(** One block delivered to [audio_callback]: the PCM bytes computed from
    [indata], what [self.vad.is_speech] answers on them ([None] when it raises)
    and the mean absolute level of [indata]. *)
Record Frame := mkFrame {
  audio_bytes : bytes;
  vad_is_speech : option bool;
  level : Q
}.

(** The fields of an [AudioRecorder] object.  [silence_duration_ms] is
    [int(self.silence_duration * 1000)]; [streams_opened] counts the
    [sd.InputStream] contexts the object has entered. *)
Record recorder := mkRecorder {
  sample_rate : Z;
  channels : Z;
  frame_duration_ms : Z;
  silence_duration_ms : Z;
  is_recording : bool;
  audio_buffer : list bytes;
  streams_opened : nat
}.

(** [AudioRecorder.__init__] with the defaults of the signature. *)
Definition init (sample_rate silence_duration_ms : Z) : recorder :=
  {| sample_rate := sample_rate;
     channels := 1;
     frame_duration_ms := 30;
     silence_duration_ms := silence_duration_ms;
     is_recording := false;
     audio_buffer := [];
     streams_opened := 0 |}.

Definition set_recording (b : bool) (r : recorder) : recorder :=
  {| sample_rate := sample_rate r;
     channels := channels r;
     frame_duration_ms := frame_duration_ms r;
     silence_duration_ms := silence_duration_ms r;
     is_recording := b;
     audio_buffer := audio_buffer r;
     streams_opened := streams_opened r |}.

Definition set_buffer (b : list bytes) (r : recorder) : recorder :=
  {| sample_rate := sample_rate r;
     channels := channels r;
     frame_duration_ms := frame_duration_ms r;
     silence_duration_ms := silence_duration_ms r;
     is_recording := is_recording r;
     audio_buffer := b;
     streams_opened := streams_opened r |}.

Definition open_stream (r : recorder) : recorder :=
  {| sample_rate := sample_rate r;
     channels := channels r;
     frame_duration_ms := frame_duration_ms r;
     silence_duration_ms := silence_duration_ms r;
     is_recording := is_recording r;
     audio_buffer := audio_buffer r;
     streams_opened := S (streams_opened r) |}.

(** The [nonlocal] variables of one [record] call, with the number of times
    [on_speech_start] has been called. *)
Record locals := mkLocals {
  speech_started : bool;
  silence_frames : Z;
  frame_count : Z;
  speech_start_calls : nat
}.

Definition locals0 : locals :=
  {| speech_started := false; silence_frames := 0; frame_count := 0;
     speech_start_calls := 0 |}.

(** [int(self.silence_duration * 1000 / self.frame_duration_ms)], with
    [silence_duration_ms] the truncated product [int(self.silence_duration *
    1000)]. *)
Definition frames_for_silence (r : recorder) : Z :=
  Z.quot (silence_duration_ms r) (frame_duration_ms r).

(** [int(max_duration * 1000 / self.frame_duration_ms)], with
    [max_duration_ms] the truncated product [int(max_duration * 1000)]. *)
Definition max_frames (r : recorder) (max_duration_ms : Z) : Z :=
  Z.quot max_duration_ms (frame_duration_ms r).

(** [level > 0.01] *)
Definition above_threshold (l : Q) : bool := negb (Qle_bool l (1 # 100)).

(** The [try: ... except Exception:] around the classifier. *)
Definition is_speech (f : Frame) : bool :=
  match vad_is_speech f with
  | Some b => b
  | None => above_threshold (level f)
  end.

(** [audio_callback]: [None] is [raise sd.CallbackAbort()]. *)
Definition audio_callback (max_duration_ms : Z) (st : recorder * locals)
    (f : Frame) : option (recorder * locals) :=
  let '(r, l) := st in
  if negb (is_recording r) then None
  else
    let '(r1, l1) :=
      if is_speech f then
        (set_buffer (audio_buffer r ++ [audio_bytes f]) r,
         {| speech_started := true;
            silence_frames := 0;
            frame_count := frame_count l;
            speech_start_calls :=
              if speech_started l then speech_start_calls l
              else S (speech_start_calls l) |})
      else if speech_started l then
        let sf := silence_frames l + 1 in
        let r' := set_buffer (audio_buffer r ++ [audio_bytes f]) r in
        (if sf >=? frames_for_silence r then set_recording false r' else r',
         {| speech_started := speech_started l;
            silence_frames := sf;
            frame_count := frame_count l;
            speech_start_calls := speech_start_calls l |})
      else (r, l) in
    let fc := frame_count l1 + 1 in
    Some (if fc >=? max_frames r max_duration_ms
          then set_recording false r1 else r1,
          {| speech_started := speech_started l1;
             silence_frames := silence_frames l1;
             frame_count := fc;
             speech_start_calls := speech_start_calls l1 |}).

(** What happens while [record] sits in [while self._is_recording]: the
    stream delivers a block, or another thread calls [stop]. *)
Inductive event :=
| Block (f : Frame)
| StopRequest.

(** [AudioRecorder.stop] *)
Definition stop (r : recorder) : recorder := set_recording false r.

(** A block that arrives once the flag is cleared aborts the callback and
    leaves everything as it is. *)
Definition on_event (max_duration_ms : Z) (st : recorder * locals)
    (e : event) : recorder * locals :=
  match e with
  | Block f =>
      match audio_callback max_duration_ms st f with
      | Some st' => st'
      | None => st
      end
  | StopRequest => (stop (fst st), snd st)
  end.

Definition run_stream (max_duration_ms : Z) (st : recorder * locals)
    (evs : list event) : recorder * locals :=
  fold_left (on_event max_duration_ms) evs st.

(** The WAV container written by [_create_wav]. *)
Record Wav := mkWav {
  nchannels : Z;
  sampwidth : Z;
  framerate : Z;
  frames : bytes
}.

Definition create_wav (r : recorder) (audio_chunks : list bytes) : Wav :=
  {| nchannels := channels r;
     sampwidth := 2;
     framerate := sample_rate r;
     frames := concat audio_chunks |}.

(** The microphone as [record] meets it: entering [sd.InputStream] raises,
    or the stream opens and the listed events follow. *)
Inductive microphone :=
| DeviceError
| Opened (evs : list event).

(** How a call of [record] ends: it returns a value, it is still inside the
    polling loop when the events run out, or an exception leaves it. *)
Inductive outcome :=
| Returned (result : option Wav) (r : recorder)
| Waiting (r : recorder) (l : locals)
| Raised (r : recorder).

Definition record (r : recorder) (max_duration_ms : Z) (mic : microphone)
    : outcome :=
  if is_recording r then Returned None r
  else
    let r := set_buffer [] (set_recording true r) in
    if frame_duration_ms r =? 0 then Raised r
    else
      match mic with
      | DeviceError => Returned None (set_recording false r)
      | Opened evs =>
          let '(r', l') := run_stream max_duration_ms (open_stream r, locals0) evs in
          if is_recording r' then Waiting r' l'
          else
            let r'' := set_recording false r' in
            match audio_buffer r' with
            | [] => Returned None r''
            | _ :: _ => Returned (Some (create_wav r' (audio_buffer r'))) r''
            end
      end.

(** Vocabulary for the properties below. *)

Definition speech_frame (f : Frame) : Prop := is_speech f = true.
Definition silence_frame (f : Frame) : Prop := is_speech f = false.

Definition silent_event (e : event) : Prop :=
  match e with
  | Block f => silence_frame f
  | StopRequest => True
  end.

(** Number of blocks among the events. *)
Fixpoint blocks (evs : list event) : Z :=
  match evs with
  | [] => 0
  | Block _ :: evs' => 1 + blocks evs'
  | StopRequest :: evs' => blocks evs'
  end.

(** Whether some other thread calls [stop] among the events. *)
Definition stop_requested (evs : list event) : bool :=
  existsb (fun e => match e with StopRequest => true | Block _ => false end)
    evs.

Definition with_vad (v : option bool) (f : Frame) : Frame :=
  {| audio_bytes := audio_bytes f; vad_is_speech := v; level := level f |}.

(** The largest number of blocks one recording can handle. *)
Definition capacity (r : recorder) (maxd : Z) : Z :=
  Z.max 1 (max_frames r maxd).

Definition same_settings (r r' : recorder) : Prop :=
  sample_rate r' = sample_rate r /\ channels r' = channels r
  /\ frame_duration_ms r' = frame_duration_ms r
  /\ silence_duration_ms r' = silence_duration_ms r
  /\ streams_opened r' = streams_opened r.

(** What every state of a recording satisfies. *)
Definition bounded (r0 : recorder) (maxd : Z) (st : recorder * locals) : Prop :=
  let '(r, l) := st in
  same_settings r0 r
  /\ Z.of_nat (length (audio_buffer r)) <= frame_count l
  /\ frame_count l <= capacity r0 maxd
  /\ (is_recording r = true -> frame_count l < capacity r0 maxd).

End Recorder.


(* ================================================================== *)
(** ** Text: Python [str] restricted to code points below 256 *)
(* ================================================================== *)

Module Text.

Local Open Scope nat_scope.

Definition code (c : ascii) : nat := nat_of_ascii c.

(** [str.isspace] on one character. *)
Definition is_space (c : ascii) : bool :=
  let n := code c in
  ((9 <=? n) && (n <=? 13)) || ((28 <=? n) && (n <=? 32))
  || (n =? 133) || (n =? 160).

Definition is_upper (c : ascii) : bool :=
  let n := code c in
  ((65 <=? n) && (n <=? 90))
  || ((192 <=? n) && (n <=? 222) && negb (n =? 215)).

Definition lower_char (c : ascii) : ascii :=
  if is_upper c then ascii_of_nat (code c + 32) else c.

(** [str.lower] *)
Fixpoint lower (s : string) : string :=
  match s with
  | EmptyString => EmptyString
  | String c s' => String (lower_char c) (lower s')
  end.

Fixpoint lstrip (s : string) : string :=
  match s with
  | EmptyString => EmptyString
  | String c s' => if is_space c then lstrip s' else s
  end.

Fixpoint rstrip (s : string) : string :=
  match s with
  | EmptyString => EmptyString
  | String c s' =>
      match rstrip s' with
      | EmptyString => if is_space c then EmptyString else String c EmptyString
      | t => String c t
      end
  end.

(** [str.strip] *)
Definition strip (s : string) : string := rstrip (lstrip s).

(** Truth value of a string: non-empty. *)
Definition truthy (s : string) : bool :=
  match s with
  | EmptyString => false
  | String _ _ => true
  end.

(** [s.startswith(p)] *)
Definition startswith (p s : string) : bool := String.prefix p s.

(** [x in xs] for a list of strings. *)
Definition mem (x : string) (xs : list string) : bool :=
  existsb (String.eqb x) xs.

(** [c in s] for a character and a string. *)
Fixpoint char_in (c : ascii) (s : string) : bool :=
  match s with
  | EmptyString => false
  | String d s' => Ascii.eqb c d || char_in c s'
  end.

(** [''.join(xs)] *)
Definition join (xs : list string) : string :=
  fold_right String.append EmptyString xs.

(** Whether the string consists of white space only. *)
Fixpoint all_space (s : string) : bool :=
  match s with
  | EmptyString => true
  | String c s' => is_space c && all_space s'
  end.

End Text.

(* ================================================================== *)
(** ** src/audio/wake_word.py *)
(* ================================================================== *)

Module WakeWord.

(** The fields of a [WakeWordDetector]; [activations] counts the calls of
    [self._callback]. *)
Record detector := mkDetector {
  porcupine : bool;      (* self._porcupine is not None *)
  is_listening : bool;
  stop_event : bool;
  callback : bool;       (* self._callback is not None *)
  activations : nat
}.

(** [__init__]: the engine exists when the package is installed, a key is
    given and [pvporcupine.create] succeeds. *)
Definition init (has_porcupine : bool) (access_key : string)
    (create_ok : bool) : detector :=
  {| porcupine := has_porcupine && Text.truthy access_key && create_ok;
     is_listening := false;
     stop_event := false;
     callback := false;
     activations := 0 |}.

Definition is_available (d : detector) : bool := porcupine d.

(** [start(on_wake)] *)
Definition start (d : detector) : detector :=
  if negb (is_available d) then d
  else if is_listening d then d
  else
    {| porcupine := porcupine d;
       is_listening := true;
       stop_event := false;
       callback := true;
       activations := activations d |}.

(** [stop] *)
Definition stop (d : detector) : detector :=
  {| porcupine := porcupine d;
     is_listening := false;
     stop_event := true;
     callback := callback d;
     activations := activations d |}.

(** [cleanup] *)
Definition cleanup (d : detector) : detector :=
  {| porcupine := false;
     is_listening := false;
     stop_event := true;
     callback := callback d;
     activations := activations d |}.

(** [audio_callback] of [_listen_loop] on a block for which
    [self._porcupine.process] answers [keyword_index]; [None] is
    [raise sd.CallbackAbort()]. *)
Definition audio_callback (d : detector) (keyword_index : Z)
    : option detector :=
  if stop_event d then None
  else if keyword_index >=? 0 then
    if callback d then
      Some {| porcupine := porcupine d;
              is_listening := is_listening d;
              stop_event := stop_event d;
              callback := callback d;
              activations := S (activations d) |}
    else Some d
  else Some d.

(** What reaches the listening thread: a block with the engine's answer, or
    [stop] called from elsewhere. *)
Inductive event :=
| Heard (keyword_index : Z)
| StopRequest.

Definition on_event (d : detector) (e : event) : detector :=
  match e with
  | Heard k =>
      match audio_callback d k with
      | Some d' => d'
      | None => d
      end
  | StopRequest => stop d
  end.

Definition listen (d : detector) (evs : list event) : detector :=
  fold_left on_event evs d.

(** Blocks with a positive answer that arrive before the first [stop]. *)
Fixpoint matches_before_stop (evs : list event) : nat :=
  match evs with
  | [] => 0%nat
  | Heard k :: evs' =>
      ((if k >=? 0 then 1 else 0) + matches_before_stop evs')%nat
  | StopRequest :: _ => 0%nat
  end.

End WakeWord.

(* ================================================================== *)
(** ** src/audio/tts.py *)
(* ================================================================== *)

Module Tts.

(** The fields of a [TextToSpeech] object with the module flag [HAS_PYGAME]
    and the state of [pygame.mixer.music].  [utterances] lists the
    [(lang, text)] arguments of the [speak] calls so far, oldest first. *)
Record tts := mkTts {
  voice_en : string;
  voice_fr : string;
  has_pygame : bool;
  is_speaking : bool;
  stop_event : bool;
  music_busy : bool;
  utterances : list (string * string)
}.

(** [__init__] *)
Definition init (voice_en voice_fr : string) (has_pygame : bool) : tts :=
  {| voice_en := voice_en; voice_fr := voice_fr; has_pygame := has_pygame;
     is_speaking := false; stop_event := false; music_busy := false;
     utterances := [] |}.

(** What the outside world does during one [speak] call. *)
Record playback := mkPlayback {
  synth_ok : bool;      (* [synthesize] returned audio *)
  play_raises : bool;   (* writing, loading or starting the file raised *)
  interrupted : bool    (* [stop] was called while the call was waiting *)
}.

(** The playback oracle: what happens during the n-th [speak] call. *)
Definition world := nat -> playback.

Definition set_flags (speaking stopped busy : bool) (t : tts) : tts :=
  {| voice_en := voice_en t; voice_fr := voice_fr t;
     has_pygame := has_pygame t;
     is_speaking := speaking; stop_event := stopped; music_busy := busy;
     utterances := utterances t |}.

Definition log_utterance (lang text : string) (t : tts) : tts :=
  {| voice_en := voice_en t; voice_fr := voice_fr t;
     has_pygame := has_pygame t;
     is_speaking := is_speaking t; stop_event := stop_event t;
     music_busy := music_busy t;
     utterances := utterances t ++ [(lang, text)] |}.

(** [get_voice_for_language] *)
Definition get_voice_for_language (t : tts) (lang : string) : string :=
  if Text.startswith "fr" lang then voice_fr t else voice_en t.

(** [stop] *)
Definition stop (t : tts) : tts := set_flags false true false t.

(** [speak(text, lang, wait)] *)
Definition speak (w : world) (t : tts) (text lang : string) (wait : bool)
    : tts :=
  let e := w (List.length (utterances t)) in
  let t := log_utterance lang text t in
  if negb (has_pygame t) then t
  else if negb (synth_ok e) then t
  else if play_raises e then set_flags false false (music_busy t) t
  else if wait then
    if interrupted e then set_flags false true false t
    else set_flags false false false t
  else set_flags false false true t.

Definition sentence_endings : string := ".!?;".

(** The scan [for i, char in enumerate(buffer)]: the buffer up to and
    including the first sentence ending, and what follows it. *)
Fixpoint split_first (buffer : string) : option (string * string) :=
  match buffer with
  | EmptyString => None
  | String c rest =>
      if Text.char_in c sentence_endings then Some (String c EmptyString, rest)
      else
        match split_first rest with
        | Some (head, tail) => Some (String c head, tail)
        | None => None
        end
  end.

(** [speak_streaming] over the chunks the generator yields. *)
Fixpoint speak_streaming_from (w : world) (t : tts) (buffer : string)
    (chunks : list string) (lang : string) : tts :=
  match chunks with
  | [] =>
      if Text.truthy (Text.strip buffer)
      then speak w t (Text.strip buffer) lang true
      else t
  | chunk :: chunks' =>
      let buffer := String.append buffer chunk in
      match split_first buffer with
      | Some (head, tail) =>
          let sentence := Text.strip head in
          if Text.truthy sentence then
            let t' := speak w t sentence lang true in
            if stop_event t' then t'
            else speak_streaming_from w t' tail chunks' lang
          else speak_streaming_from w t tail chunks' lang
      | None => speak_streaming_from w t buffer chunks' lang
      end
  end.

Definition speak_streaming (w : world) (t : tts) (chunks : list string)
    (lang : string) : tts :=
  speak_streaming_from w t EmptyString chunks lang.

(** Vocabulary for the properties below. *)

(** The texts of the [speak] calls, oldest first. *)
Definition spoken (t : tts) : list string := map snd (utterances t).

Fixpoint has_ending (s : string) : bool :=
  match s with
  | EmptyString => false
  | String c s' => Text.char_in c sentence_endings || has_ending s'
  end.

(** A piece that stops at its first sentence ending. *)
Fixpoint one_sentence (s : string) : bool :=
  match s with
  | EmptyString => false
  | String c EmptyString => Text.char_in c sentence_endings
  | String c s' => negb (Text.char_in c sentence_endings) && one_sentence s'
  end.

(** The reading in which the text is cut at every sentence ending: the
    sentences of [s], each with its ending, and the unterminated rest. *)
Fixpoint cut_at_endings (acc s : string) : list string :=
  match s with
  | EmptyString => match acc with EmptyString => [] | _ => [acc] end
  | String c s' =>
      let acc' := String.append acc (String c EmptyString) in
      if Text.char_in c sentence_endings
      then acc' :: cut_at_endings EmptyString s'
      else cut_at_endings acc' s'
  end.

Definition stripped_nonempty (pieces : list string) : list string :=
  filter Text.truthy (map Text.strip pieces).

(** No [stop] arrives during any [speak] call. *)
Definition undisturbed (w : world) : Prop :=
  forall n, interrupted (w n) = false.

End Tts.

(* ================================================================== *)
(** ** src/ai/conversation.py *)
(* ================================================================== *)

Module Conversation.

Record message := mkMessage {
  role : string;
  content : string;
  timestamp : option string
}.

(** The fields of a [ConversationManager] that the history depends on. *)
Record manager := mkManager {
  system_prompt : string;
  max_history : Z;
  messages : list message
}.

Definition system_message (prompt : string) : message :=
  {| role := "system"; content := prompt; timestamp := None |}.

(** [__init__]: [config_prompt] is [Config().system_prompt]. *)
Definition init (config_prompt prompt : string) (max_history : Z) : manager :=
  let p := if Text.truthy prompt then prompt else config_prompt in
  {| system_prompt := p;
     max_history := max_history;
     messages := if Text.truthy p then [system_message p] else [] |}.

Definition append (m : message) (c : manager) : manager :=
  {| system_prompt := system_prompt c;
     max_history := max_history c;
     messages := messages c ++ [m] |}.

(** [add_user_message]; [now] is [datetime.now().isoformat()]. *)
Definition add_user_message (now content : string) (c : manager) : manager :=
  append {| role := "user"; content := content; timestamp := Some now |} c.

(** [add_assistant_message] *)
Definition add_assistant_message (now content : string) (c : manager)
    : manager :=
  append {| role := "assistant"; content := content; timestamp := Some now |} c.

(** The slice [xs[k:]]: a negative [k] counts from the end. *)
Definition slice_from {A : Type} (xs : list A) (k : Z) : list A :=
  let n := Z.of_nat (List.length xs) in
  let start := if k <? 0 then Z.max 0 (n + k) else Z.min k n in
  skipn (Z.to_nat start) xs.

(** [messages_for_llm]; [None] is the [IndexError] of [self._messages[0]]. *)
Definition messages_for_llm (c : manager) : option (list message) :=
  if Z.of_nat (List.length (messages c)) <=? max_history c + 1
  then Some (messages c)
  else
    match messages c with
    | [] => None
    | first :: _ => Some ([first] ++ slice_from (messages c) (- max_history c))
    end.

(** One call of [add_user_message] or [add_assistant_message]. *)
Inductive addition :=
| User (now content : string)
| Assistant (now content : string).

Definition add (c : manager) (a : addition) : manager :=
  match a with
  | User now content => add_user_message now content c
  | Assistant now content => add_assistant_message now content c
  end.

Definition add_all (c : manager) (adds : list addition) : manager :=
  fold_left add adds c.

Definition message_of (a : addition) : message :=
  match a with
  | User now content =>
      {| role := "user"; content := content; timestamp := Some now |}
  | Assistant now content =>
      {| role := "assistant"; content := content; timestamp := Some now |}
  end.

(** The last [n] elements of a list, in their order. *)
Definition last_n {A : Type} (n : nat) (xs : list A) : list A :=
  skipn (List.length xs - n) xs.

End Conversation.

(* ================================================================== *)
(** ** src/assistant.py *)
(* ================================================================== *)

Module Assistant.

(** The fields of a [VoiceAssistant]. *)
Record assistant := mkAssistant {
  running : bool;
  listening : bool;
  recorder : Recorder.recorder;
  tts : Tts.tts;
  conversation : Conversation.manager;
  wake_word : option WakeWord.detector
}.

(** What the collaborators answer during one turn. *)
Record turn := mkTurn {
  mic : Recorder.microphone;
  transcribe : Recorder.Wav -> string * string;           (* stt.transcribe *)
  stream_chat : list Conversation.message -> list string;  (* llm.stream_chat *)
  playback : Tts.world;
  now : string;        (* the clock when the user's message is stored *)
  now_reply : string   (* the clock when the reply is stored *)
}.

(** How a coroutine ends: it finishes, it is still suspended when the
    events run out, or an exception leaves it. *)
Inductive completion :=
| Finished (a : assistant)
| Suspended (a : assistant)
| Failed (a : assistant).

Definition set_running (b : bool) (a : assistant) : assistant :=
  {| running := b; listening := listening a; recorder := recorder a;
     tts := tts a; conversation := conversation a; wake_word := wake_word a |}.

Definition set_listening (b : bool) (a : assistant) : assistant :=
  {| running := running a; listening := b; recorder := recorder a;
     tts := tts a; conversation := conversation a; wake_word := wake_word a |}.

Definition set_recorder (r : Recorder.recorder) (a : assistant) : assistant :=
  {| running := running a; listening := listening a; recorder := r;
     tts := tts a; conversation := conversation a; wake_word := wake_word a |}.

Definition set_tts (t : Tts.tts) (a : assistant) : assistant :=
  {| running := running a; listening := listening a; recorder := recorder a;
     tts := t; conversation := conversation a; wake_word := wake_word a |}.

Definition set_conversation (c : Conversation.manager) (a : assistant)
    : assistant :=
  {| running := running a; listening := listening a; recorder := recorder a;
     tts := tts a; conversation := c; wake_word := wake_word a |}.

Definition set_wake_word (d : option WakeWord.detector) (a : assistant)
    : assistant :=
  {| running := running a; listening := listening a; recorder := recorder a;
     tts := tts a; conversation := conversation a; wake_word := d |}.

Definition e_circumflex : string := String (ascii_of_nat 234) EmptyString.

(** "arrête" *)
Definition arrete : string := String.append "arr" (String.append e_circumflex "te").

Definition exit_commands : list string :=
  ["exit"; "quit"; "stop"; "goodbye"; "bye"; arrete; "au revoir"]%string.

Definition stop_speaking_commands : list string :=
  ["stop"; arrete; "tais-toi"; "shut up"]%string.

(** [stop] *)
Definition stop (a : assistant) : assistant :=
  let a := set_running false a in
  let a := set_tts (Tts.stop (tts a)) a in
  match wake_word a with
  | Some d => set_wake_word (Some (WakeWord.stop d)) a
  | None => a
  end.

Definition a_grave : string := String (ascii_of_nat 192) EmptyString.
Definition o_circumflex : string := String (ascii_of_nat 244) EmptyString.

(** [_say_goodbye] *)
Definition say_goodbye (w : Tts.world) (lang : string) (a : assistant)
    : assistant :=
  if Text.startswith "fr" lang then
    set_tts (Tts.speak w (tts a)
               (String.append "Au revoir! "
                  (String.append a_grave
                     (String.append " bient" (String.append o_circumflex "t!"))))
               "fr" true) a
  else
    set_tts (Tts.speak w (tts a) "Goodbye! Have a great day!" "en" true) a.

Definition max_duration_ms : Z := 15000.

(** [_process_speech] *)
Definition process_speech (e : turn) (a : assistant) : completion :=
  let a := set_listening true a in
  match Recorder.record (recorder a) max_duration_ms (mic e) with
  | Recorder.Waiting r _ => Suspended (set_recorder r a)
  | Recorder.Raised r => Failed (set_recorder r a)
  | Recorder.Returned audio r =>
      let a := set_listening false (set_recorder r a) in
      match audio with
      | None => Finished a
      | Some wav =>
          (* a WAV file is never empty, so [not audio] is false here *)
          let '(text, lang) := transcribe e wav in
          if negb (Text.truthy text)
             || (String.length (Text.strip text) <? 2)%nat
          then Finished a
          else if Text.mem (Text.strip (Text.lower text)) exit_commands then
            Finished (stop (say_goodbye (playback e) lang a))
          else if Text.mem (Text.strip (Text.lower text))
                    stop_speaking_commands then
            Finished (set_tts (Tts.stop (tts a)) a)
          else
            let c := Conversation.add_user_message (now e) text
                       (conversation a) in
            let a := set_conversation c a in
            match Conversation.messages_for_llm c with
            | None => Failed a
            | Some msgs =>
                let response := Text.join (stream_chat e msgs) in
                let a := set_conversation
                           (Conversation.add_assistant_message (now_reply e)
                              response c) a in
                Finished (set_tts (Tts.speak (playback e) (tts a)
                                     response lang true) a)
            end
      end
  end.

(** [_on_wake_word]: what an activation runs. *)
Definition on_wake_word (e : turn) (a : assistant) : completion :=
  process_speech e a.

(** [cleanup] *)
Definition cleanup (a : assistant) : assistant :=
  let a := stop a in
  match wake_word a with
  | Some d => set_wake_word (Some (WakeWord.cleanup d)) a
  | None => a
  end.

(** The push-to-talk loop of [run_async]: one turn per line read, as long
    as [_running] holds, then [cleanup]. *)
Fixpoint push_to_talk (a : assistant) (turns : list turn) : completion :=
  match turns with
  | [] => if running a then Suspended a else Finished (cleanup a)
  | e :: turns' =>
      if running a then
        match process_speech e a with
        | Finished a' => push_to_talk a' turns'
        | Suspended a' => Suspended a'
        | Failed a' => Failed (cleanup a')
        end
      else Finished (cleanup a)
  end.

(** Number of [_process_speech] calls the loop makes. *)
Fixpoint turns_served (a : assistant) (turns : list turn) : nat :=
  match turns with
  | [] => 0%nat
  | e :: turns' =>
      if running a then
        match process_speech e a with
        | Finished a' => S (turns_served a' turns')
        | _ => 1%nat
        end
      else 0%nat
  end.

End Assistant.

(* ================================================================== *)
(** ** Sample inputs *)
(* ================================================================== *)

Module Samples.

Definition speech_block : Recorder.Frame :=
  {| Recorder.audio_bytes := [Byte.x10; Byte.x27];
     Recorder.vad_is_speech := Some true;
     Recorder.level := 1 # 5 |}.

Definition silence_block : Recorder.Frame :=
  {| Recorder.audio_bytes := [Byte.x00; Byte.x00];
     Recorder.vad_is_speech := Some false;
     Recorder.level := 0 |}.

(** A loud block on which the classifier raises. *)
Definition loud_failure : Recorder.Frame :=
  {| Recorder.audio_bytes := [Byte.x40; Byte.x1f];
     Recorder.vad_is_speech := None;
     Recorder.level := 1 # 2 |}.

(** The recorder the assistant builds, with a 0.9 s silence threshold. *)
Definition recorder900 : Recorder.recorder := Recorder.init 16000 900.

(** The same recorder in the middle of a recording. *)
Definition recording900 : Recorder.recorder :=
  Recorder.open_stream
    (Recorder.set_buffer [] (Recorder.set_recording true recorder900)).

Definition speech20 : list Recorder.Frame := repeat speech_block 20.
Definition silence35 : list Recorder.Frame := repeat silence_block 35.

(** A detector that has been started. *)
Definition listening_detector : WakeWord.detector :=
  WakeWord.start (WakeWord.init true "key" true).

(** A world in which synthesis and playback work and nobody interrupts. *)
Definition quiet_world : Tts.world :=
  fun _ => {| Tts.synth_ok := true; Tts.play_raises := false;
              Tts.interrupted := false |}.

(** A world in which [stop] is called during the first utterance. *)
Definition interrupting_world : Tts.world :=
  fun n => {| Tts.synth_ok := true; Tts.play_raises := false;
              Tts.interrupted := (n =? 0)%nat |}.

Definition tts0 : Tts.tts :=
  Tts.init "en-US-AriaNeural" "fr-FR-DeniseNeural" true.

(** A manager built with [max_history=0], after one user message. *)
Definition zero_history : Conversation.manager :=
  Conversation.add_user_message "2024-01-01T00:00:00" "hi"
    (Conversation.init "" "You are Nova." 0).

Definition assistant0 : Assistant.assistant :=
  {| Assistant.running := true;
     Assistant.listening := false;
     Assistant.recorder := recorder900;
     Assistant.tts := tts0;
     Assistant.conversation := Conversation.init "" "You are Nova." 20;
     Assistant.wake_word := None |}.

(** The assistant while its recorder is capturing. *)
Definition capturing_assistant : Assistant.assistant :=
  Assistant.set_listening true (Assistant.set_recorder recording900 assistant0).

(** A turn in which the user is heard to say [text]. *)
Definition turn_saying (text : string) : Assistant.turn :=
  {| Assistant.mic :=
       Recorder.Opened (map Recorder.Block (speech20 ++ silence35));
     Assistant.transcribe := fun _ => (text, "en"%string);
     Assistant.stream_chat := fun _ => ["Sure. "; "Done."]%string;
     Assistant.playback := quiet_world;
     Assistant.now := "2024-01-01T00:00:00";
     Assistant.now_reply := "2024-01-01T00:00:03" |}.

End Samples.

(* ================================================================== *)
(** ** Recorder: further vocabulary *)
(* ================================================================== *)

Module RecorderMore.
Import Recorder.

(** The recorder as [record] leaves it on entering the stream. *)
Definition started (r : recorder) : recorder :=
  open_stream (set_buffer [] (set_recording true r)).

(** The PCM bytes of the blocks among the events, in their order. *)
Fixpoint block_bytes (evs : list event) : list bytes :=
  match evs with
  | [] => []
  | Block f :: evs' => audio_bytes f :: block_bytes evs'
  | StopRequest :: evs' => block_bytes evs'
  end.

(** [subseq xs ys]: [xs] is [ys] with some elements left out. *)
Inductive subseq {A : Type} : list A -> list A -> Prop :=
| subseq_nil : subseq [] []
| subseq_skip : forall x xs ys, subseq xs ys -> subseq xs (x :: ys)
| subseq_keep : forall x xs ys, subseq xs ys -> subseq (x :: xs) (x :: ys).

(** What the notification count and the buffer have to do with the
    [speech_started] flag. *)
Definition notified (st : recorder * locals) : Prop :=
  let '(r, l) := st in
  (speech_started l = false
   /\ speech_start_calls l = 0%nat /\ audio_buffer r = [])
  \/ (speech_started l = true
      /\ speech_start_calls l = 1%nat /\ audio_buffer r <> []).

End RecorderMore.

(* ================================================================== *)
(** ** More sample inputs *)
(* ================================================================== *)

Module MoreSamples.

(** [AudioRecorder(frame_duration_ms=0)] *)
Definition zero_frame_recorder : Recorder.recorder :=
  {| Recorder.sample_rate := 16000;
     Recorder.channels := 1;
     Recorder.frame_duration_ms := 0;
     Recorder.silence_duration_ms := 1500;
     Recorder.is_recording := false;
     Recorder.audio_buffer := [];
     Recorder.streams_opened := 0 |}.

Definition silence3 : list Recorder.Frame := repeat Samples.silence_block 3.

(** Two speech blocks, a stop from outside, one more speech block. *)
Definition stopped_stream : list Recorder.event :=
  [Recorder.Block Samples.speech_block; Recorder.Block Samples.speech_block;
   Recorder.StopRequest; Recorder.Block Samples.speech_block].

Definition turn_without_microphone : Assistant.turn :=
  {| Assistant.mic := Recorder.DeviceError;
     Assistant.transcribe := fun _ => ("hello"%string, "en"%string);
     Assistant.stream_chat := fun _ => ["Hi."%string];
     Assistant.playback := Samples.quiet_world;
     Assistant.now := "2024-01-01T00:00:00";
     Assistant.now_reply := "2024-01-01T00:00:03" |}.

End MoreSamples.

(* ================================================================== *)
(** ** src/audio/wake_word.py: keyword choice and push-to-talk *)
(* ================================================================== *)

Module WakeWordMore.

Local Open Scope string_scope.
Local Open Scope list_scope.

Definition BUILT_IN_KEYWORDS : list string :=
  ["alexa"; "americano"; "blueberry"; "bumblebee"; "computer";
   "grapefruit"; "grasshopper"; "hey google"; "hey siri"; "jarvis";
   "ok google"; "picovoice"; "porcupine"; "terminator"].

(** [s.replace(a, b)] for one-character [a] and [b]. *)
Fixpoint replace_char (a b : ascii) (s : string) : string :=
  match s with
  | EmptyString => EmptyString
  | String c s' =>
      String (if Ascii.eqb c a then b else c) (replace_char a b s')
  end.

(** [keyword_to_use] of [_init_porcupine] *)
Definition keyword_to_use (keyword : string) : string :=
  replace_char " " "_" (Text.lower keyword).

(** [[k.replace(" ", "_") for k in self.BUILT_IN_KEYWORDS]] *)
Definition built_in_names : list string :=
  map (replace_char " " "_") BUILT_IN_KEYWORDS.

(** [_init_porcupine]: the keyword passed to [pvporcupine.create]. *)
Definition requested_keyword (keyword : string) : string :=
  if Text.mem (keyword_to_use keyword) built_in_names
  then keyword
  else "computer".

End WakeWordMore.

Module PushToTalk.

(** The fields of a [PushToTalk]; [activations] counts the calls of
    [self._callback] and [looping] tells whether the thread is still
    inside [_wait_loop]. *)
Record push_to_talk := mkPushToTalk {
  waiting : bool;
  stop_event : bool;
  callback : bool;      (* self._callback is not None *)
  looping : bool;
  activations : nat
}.

(** [__init__] *)
Definition init : push_to_talk :=
  {| waiting := false; stop_event := false; callback := false;
     looping := false; activations := 0 |}.

(** [start(on_activate)] *)
Definition start (p : push_to_talk) : push_to_talk :=
  {| waiting := true; stop_event := false; callback := true;
     looping := true; activations := activations p |}.

(** [stop] *)
Definition stop (p : push_to_talk) : push_to_talk :=
  {| waiting := false; stop_event := true; callback := callback p;
     looping := looping p; activations := activations p |}.

(** What the thread blocked in [input()] meets: a line, the end of the
    input, or [stop] called by another thread in the meantime. *)
Inductive event :=
| Line
| Eof
| StopRequest.

Definition leave (p : push_to_talk) : push_to_talk :=
  {| waiting := waiting p; stop_event := stop_event p;
     callback := callback p; looping := false;
     activations := activations p |}.

Definition activate (p : push_to_talk) : push_to_talk :=
  {| waiting := waiting p; stop_event := stop_event p;
     callback := callback p; looping := looping p;
     activations := S (activations p) |}.

(** One round of [_wait_loop]: [input()] returns and the callback is
    called if the object is still waiting, then the loop condition is
    tested; [EOFError] leaves the loop. *)
Definition on_event (p : push_to_talk) (e : event) : push_to_talk :=
  match e with
  | Line =>
      if looping p then
        let p' := if callback p && waiting p then activate p else p in
        if stop_event p' then leave p' else p'
      else p
  | Eof => if looping p then leave p else p
  | StopRequest => stop p
  end.

Definition wait_loop (p : push_to_talk) (evs : list event) : push_to_talk :=
  fold_left on_event evs p.

(** Lines that arrive before the input ends or [stop] is called. *)
Fixpoint lines_before_end (evs : list event) : nat :=
  match evs with
  | Line :: evs' => S (lines_before_end evs')
  | _ => 0%nat
  end.

End PushToTalk.

(* ================================================================== *)
(** ** Playback sink: further vocabulary *)
(* ================================================================== *)

Module TtsMore.

(** Number of sentence endings in a string. *)
Fixpoint count_endings (s : string) : nat :=
  match s with
  | EmptyString => 0%nat
  | String c s' =>
      ((if Text.char_in c Tts.sentence_endings then 1 else 0)
       + count_endings s')%nat
  end.

(** Whether the [n]-th call of [speak] is cut short by [stop]: the audio
    was synthesized and started, and [stop] arrived while it played. *)
Definition halts (w : Tts.world) (t : Tts.tts) (n : nat) : bool :=
  Tts.has_pygame t && Tts.synth_ok (w n) && negb (Tts.play_raises (w n))
  && Tts.interrupted (w n).

(** Number of sentences cut off while the chunks come in: one after each
    chunk that leaves a sentence ending in the buffer, none after a chunk
    that leaves none.  [pending] is the number of endings in the buffer. *)
Fixpoint cuts (pending : nat) (chunks : list string) : nat :=
  match chunks with
  | [] => 0%nat
  | chunk :: chunks' =>
      match (pending + count_endings chunk)%nat with
      | O => cuts 0 chunks'
      | S others => S (cuts others chunks')
      end
  end.

(** The utterances made when [sentences] are spoken one after the other,
    the first of them being the [n]-th call of [speak]: they end with the
    first sentence that is cut short, and [closing] follows when none is. *)
Fixpoint until_halt (halt : nat -> bool) (n : nat)
    (sentences closing : list string) : list string :=
  match sentences with
  | [] => closing
  | s :: sentences' =>
      s :: (if halt n then [] else until_halt halt (S n) sentences' closing)
  end.

(** What is spoken at the end of the stream of the pieces still in the
    buffer: their text, stripped, in one utterance, unless it is blank. *)
Definition closing_utterance (pieces : list string) : list string :=
  if Text.truthy (Text.strip (Text.join pieces))
  then [Text.strip (Text.join pieces)]
  else [].

(** The sentences [speak_streaming] cuts off while the chunks come in, and
    the pieces still in the buffer when the stream ends. *)
Definition streamed_sentences (chunks : list string) : list string :=
  firstn (cuts 0 chunks) (Tts.cut_at_endings EmptyString (Text.join chunks)).

Definition streamed_rest (chunks : list string) : list string :=
  skipn (cuts 0 chunks) (Tts.cut_at_endings EmptyString (Text.join chunks)).

End TtsMore.

(* ================================================================== *)
(** ** src/ai/conversation.py: the other operations *)
(* ================================================================== *)

Module ConversationMore.
Import Conversation.

Local Open Scope string_scope.
Local Open Scope list_scope.

(** [add_message] *)
Definition add_message (now role content : string) (c : manager) : manager :=
  if String.eqb role "user" then add_user_message now content c
  else if String.eqb role "assistant" then add_assistant_message now content c
  else append {| role := role; content := content; timestamp := None |} c.

(** [clear_history] *)
Definition clear_history (keep_system : bool) (c : manager) : manager :=
  {| system_prompt := system_prompt c;
     max_history := max_history c;
     messages :=
       if keep_system && Text.truthy (system_prompt c)
       then [system_message (system_prompt c)]
       else [] |}.

(** [user_messages] *)
Definition user_messages (c : manager) : list string :=
  map content (filter (fun m => String.eqb (role m) "user") (messages c)).

(** [assistant_messages] *)
Definition assistant_messages (c : manager) : list string :=
  map content
    (filter (fun m => String.eqb (role m) "assistant") (messages c)).

(** [__len__] *)
Definition len (c : manager) : nat :=
  List.length
    (filter (fun m => negb (String.eqb (role m) "system")) (messages c)).

(** The part of the dictionary written by [save] that comes from the
    history: the prompt, the messages without their time stamps and
    without the system messages, and the two counts of the metadata.
    Writing the dictionary with [json.dump] and reading it back with
    [json.load] is taken to return the same dictionary. *)
Record saved := mkSaved {
  saved_system_prompt : string;
  saved_messages : list (string * string);   (* role, content *)
  user_message_count : nat;
  assistant_message_count : nat
}.

(** [save] *)
Definition save (c : manager) : saved :=
  {| saved_system_prompt := system_prompt c;
     saved_messages :=
       map (fun m => (role m, content m))
         (filter (fun m => negb (String.eqb (role m) "system"))
            (messages c));
     user_message_count := List.length (user_messages c);
     assistant_message_count := List.length (assistant_messages c) |}.

(** The loop of [load]: [clock n] is the time at which the [n]-th message
    is added back. *)
Fixpoint restore (clock : nat -> string) (n : nat)
    (msgs : list (string * string)) (c : manager) : manager :=
  match msgs with
  | [] => c
  | (role, content) :: msgs' =>
      restore clock (S n) msgs' (add_message (clock n) role content c)
  end.

(** [load]: the manager is built with the saved prompt and the default
    [max_history], then the messages are added back. *)
Definition load (config_prompt : string) (clock : nat -> string)
    (d : saved) : manager :=
  restore clock 0 (saved_messages d)
    (init config_prompt (saved_system_prompt d) 20).

(** Vocabulary. *)

Definition role_and_content (m : message) : string * string :=
  (role m, content m).

Fixpoint user_contents (adds : list addition) : list string :=
  match adds with
  | [] => []
  | User _ content :: adds' => content :: user_contents adds'
  | Assistant _ _ :: adds' => user_contents adds'
  end.

Fixpoint assistant_contents (adds : list addition) : list string :=
  match adds with
  | [] => []
  | User _ _ :: adds' => assistant_contents adds'
  | Assistant _ content :: adds' => content :: assistant_contents adds'
  end.

End ConversationMore.

(* ================================================================== *)
(** ** src/core/config.py *)
(* ================================================================== *)

Module Config.

Local Open Scope string_scope.
Local Open Scope list_scope.

#[local] Set Warnings "-register-all".

(** What [yaml.safe_load] yields; a dictionary is the list of its items
    in insertion order, and a key is looked up at its first item. *)
Inductive value :=
| VNone
| VBool (b : bool)
| VInt (z : Z)
| VFloat (q : Q)
| VStr (s : string)
| VList (l : list value)
| VDict (items : list (string * value)).

Definition dict := list (string * value).

Definition is_none (v : value) : bool :=
  match v with
  | VNone => true
  | _ => false
  end.

(** [d.get(key)] *)
Fixpoint dict_get (items : dict) (key : string) : value :=
  match items with
  | [] => VNone
  | (k, v) :: rest => if String.eqb k key then v else dict_get rest key
  end.

(** [key in d] *)
Definition contains (items : dict) (key : string) : bool :=
  existsb (fun kv => String.eqb (fst kv) key) items.

(** [d[key] = v] *)
Fixpoint dict_set (items : dict) (key : string) (v : value) : dict :=
  match items with
  | [] => [(key, v)]
  | (k, x) :: rest =>
      if String.eqb k key then (k, v) :: rest
      else (k, x) :: dict_set rest key v
  end.

(** The loop of [get], from the value reached so far. *)
Fixpoint get_from (current : value) (keys : list string) (default : value)
    : value :=
  match keys with
  | [] => current
  | key :: keys' =>
      match current with
      | VDict items =>
          let found := dict_get items key in
          if is_none found then default else get_from found keys' default
      | _ => default
      end
  end.

(** [get]: [keys] are the positional arguments. *)
Definition get (config : dict) (keys : list string) (default : value)
    : value :=
  get_from (VDict config) keys default.

(** [config.setdefault(section, {})[field] = v]; [None] is the
    [TypeError] raised when the section exists and is not a dictionary. *)
Definition set_in_section (config : dict) (section field : string)
    (v : value) : option dict :=
  if contains config section then
    match dict_get config section with
    | VDict items =>
        Some (dict_set config section (VDict (dict_set items field v)))
    | _ => None
    end
  else Some (config ++ [(section, VDict [(field, v)])]).

(** [_apply_env_overrides]: the arguments are the values of
    [OPENAI_API_KEY] and [PORCUPINE_ACCESS_KEY], empty when unset. *)
Definition apply_env_overrides (openai_key porcupine_key : string)
    (config : dict) : option dict :=
  match (if Text.truthy openai_key
         then set_in_section config "openai" "api_key" (VStr openai_key)
         else Some config) with
  | None => None
  | Some config' =>
      if Text.truthy porcupine_key
      then set_in_section config' "porcupine" "access_key"
             (VStr porcupine_key)
      else Some config'
  end.

(** [{k: v for k, v in d.items() if k != field}] *)
Definition without (field : string) (items : dict) : dict :=
  filter (fun kv => negb (String.eqb (fst kv) field)) items.

(** One step of [to_dict]; [None] is the [AttributeError] raised when the
    section has no [items]. *)
Definition hide (config : dict) (section field : string) : option dict :=
  if contains config section then
    match dict_get config section with
    | VDict items => Some (dict_set config section (VDict (without field items)))
    | _ => None
    end
  else Some config.

(** [to_dict] *)
Definition to_dict (config : dict) : option dict :=
  match hide config "openai" "api_key" with
  | None => None
  | Some config' => hide config' "porcupine" "access_key"
  end.

(** [openai_api_key] *)
Definition openai_api_key (config : dict) : value :=
  get config ["openai"; "api_key"] VNone.

(** [config.get("porcupine", "access_key")], as [_init_audio] reads it. *)
Definition porcupine_access_key (config : dict) : value :=
  get config ["porcupine"; "access_key"] VNone.

End Config.

(* ================================================================== *)
(** ** Durations: the source's float expressions in binary64 *)
(* ================================================================== *)

Module Durations.

(** A Python [float]: IEEE 754 binary64, rounding to nearest even. *)
Definition float := SpecFloat.spec_float.

Definition prec : Z := 53.
Definition emax : Z := 1024.

(** [float(z)] *)
Definition of_int (z : Z) : float :=
  SpecFloat.binary_normalize prec emax z 0 false.

Definition mul (x y : float) : float := SpecFloat.SFmul prec emax x y.
Definition div (x y : float) : float := SpecFloat.SFdiv prec emax x y.

(** [int(x)]: truncation towards zero; [None] is the [OverflowError] or
    [ValueError] raised for an infinity or a NaN. *)
Definition int (x : float) : option Z :=
  match x with
  | SpecFloat.S754_zero _ => Some 0
  | SpecFloat.S754_finite negative m e =>
      let magnitude :=
        if 0 <=? e then Z.pos m * 2 ^ e else Z.quot (Z.pos m) (2 ^ (- e)) in
      Some (if negative then - magnitude else magnitude)
  | _ => None
  end.

(** The float that a decimal literal with three decimals denotes: the
    binary64 nearest to [thousandths / 1000], so [literal 2010] is [2.01]. *)
Definition literal (thousandths : Z) : float :=
  div (of_int thousandths) (of_int 1000).

(** [int(seconds * 1000)]: what the fields [silence_duration_ms] and the
    argument [max_duration_ms] stand for. *)
Definition milliseconds (seconds : float) : option Z :=
  int (mul seconds (of_int 1000)).

(** [int(seconds * 1000 / frame_duration_ms)] as the source computes it;
    [None] also for the [ZeroDivisionError]. *)
Definition frames (seconds : float) (frame_duration_ms : Z) : option Z :=
  if frame_duration_ms =? 0 then None
  else int (div (mul seconds (of_int 1000)) (of_int frame_duration_ms)).

(** [AudioRecorder(sample_rate, silence_duration=seconds)] *)
Definition recorder_of (sample_rate : Z) (seconds : float)
    : option Recorder.recorder :=
  option_map (Recorder.init sample_rate) (milliseconds seconds).

(** Whether, for the duration [thousandths / 1000] seconds, the source's
    frame count is the quotient of the truncated product. *)
Definition agrees (frame_duration_ms thousandths : Z) : bool :=
  match frames (literal thousandths) frame_duration_ms,
        milliseconds (literal thousandths) with
  | Some n, Some ms => n =? Z.quot ms frame_duration_ms
  | _, _ => false
  end.

(** [p] holds of [step * k] for every [k] below [100 * hundreds]. *)
Definition all_multiples (step : Z) (hundreds : nat) (p : Z -> bool) : bool :=
  forallb
    (fun a =>
       forallb (fun b => p (step * (Z.of_nat a * 100 + Z.of_nat b)))
         (seq 0 100))
    (seq 0 hundreds).

End Durations.

(* ------------------------------------------------------------------ *)
(** *** Facts about the recorder *)

Module RecorderFacts.
Import Recorder.

Lemma geb_false a b : a < b -> (a >=? b) = false.
Proof. intros H. rewrite Z.geb_leb. apply Z.leb_gt. exact H. Qed.

Lemma geb_true a b : b <= a -> (a >=? b) = true.
Proof. intros H. rewrite Z.geb_leb. apply Z.leb_le. exact H. Qed.

Lemma set_recording_same r :
  set_recording (is_recording r) r = r.
Proof. destruct r; reflexivity. Qed.

Lemma stop_idle r : is_recording r = false -> stop r = r.
Proof. intros H. unfold stop. rewrite <- H. apply set_recording_same. Qed.

Lemma run_stream_app maxd st evs1 evs2 :
  run_stream maxd st (evs1 ++ evs2)
  = run_stream maxd (run_stream maxd st evs1) evs2.
Proof. unfold run_stream. apply fold_left_app. Qed.

Lemma run_stream_cons maxd st e evs :
  run_stream maxd st (e :: evs) = run_stream maxd (on_event maxd st e) evs.
Proof. reflexivity. Qed.

(** Once the flag is cleared nothing moves any more. *)
Lemma on_event_closed maxd r l e :
  is_recording r = false -> on_event maxd (r, l) e = (r, l).
Proof.
  intros H. destruct e as [f|]; simpl.
  - rewrite H. reflexivity.
  - rewrite (stop_idle r H). reflexivity.
Qed.

Lemma run_stream_closed maxd r l evs :
  is_recording r = false -> run_stream maxd (r, l) evs = (r, l).
Proof.
  intros H. induction evs as [|e evs IH]; [reflexivity|].
  rewrite run_stream_cons, on_event_closed by exact H. exact IH.
Qed.

(** The callback runs to its end whenever the flag is set. *)
Lemma audio_callback_runs maxd r l f :
  is_recording r = true -> exists st', audio_callback maxd (r, l) f = Some st'.
Proof.
  intros H. unfold audio_callback. rewrite H. simpl.
  destruct (is_speech f); [|destruct (speech_started l)];
    eexists; reflexivity.
Qed.

(** The frame counter moves on every processed block, whatever its class. *)
Lemma frame_count_incremented maxd r l f r' l' :
  audio_callback maxd (r, l) f = Some (r', l') ->
  frame_count l' = frame_count l + 1.
Proof.
  unfold audio_callback. destruct (is_recording r); simpl; [|discriminate].
  destruct (is_speech f); [|destruct (speech_started l)];
    intros H; inversion H; reflexivity.
Qed.

End RecorderFacts.

(* ------------------------------------------------------------------ *)
(** *** Bound on the collected frames *)

Module RecorderBound.
Import Recorder RecorderFacts.

Lemma max_frames_settings r0 r maxd :
  same_settings r0 r -> max_frames r maxd = max_frames r0 maxd.
Proof. intros (_ & _ & H & _). unfold max_frames. now rewrite H. Qed.

Lemma same_settings_refl r : same_settings r r.
Proof. repeat split. Qed.

Lemma bounded_step r0 maxd st e :
  bounded r0 maxd st -> bounded r0 maxd (on_event maxd st e).
Proof.
  destruct st as [r l]. intros (Hs & Hlen & Hcap & Hrec).
  destruct e as [f|]; simpl.
  - destruct (is_recording r) eqn:Er; simpl;
      [|unfold bounded; rewrite Er; tauto].
    specialize (Hrec eq_refl).
    pose proof (max_frames_settings r0 r maxd Hs) as Hm.
    assert (Hc : capacity r0 maxd = Z.max 1 (max_frames r maxd))
      by (unfold capacity; now rewrite Hm).
    destruct Hs as (H1 & H2 & H3 & H4 & H5).
    destruct (is_speech f); [|destruct (speech_started l)]; simpl.
    + destruct (frame_count l + 1 >=? max_frames r maxd) eqn:Ef; simpl;
        rewrite ?length_app, ?Er; simpl; repeat split; try assumption;
        try lia; try discriminate.
    + destruct (silence_frames l + 1 >=? frames_for_silence r);
        destruct (frame_count l + 1 >=? max_frames r maxd) eqn:Ef; simpl;
        rewrite ?length_app, ?Er; simpl; repeat split; try assumption;
        try lia; try discriminate.
    + destruct (frame_count l + 1 >=? max_frames r maxd) eqn:Ef; simpl;
        rewrite ?Er; repeat split; try assumption; try lia;
        try discriminate.
  - unfold stop. destruct Hs as (H1 & H2 & H3 & H4 & H5).
    simpl. repeat split; try assumption. discriminate.
Qed.

Lemma bounded_run r0 maxd evs st :
  bounded r0 maxd st -> bounded r0 maxd (run_stream maxd st evs).
Proof.
  revert st. induction evs as [|e evs IH]; intros st H; [exact H|].
  rewrite run_stream_cons. apply IH, bounded_step, H.
Qed.

End RecorderBound.

(* ------------------------------------------------------------------ *)
(** *** Runs of speech and of silence *)

Module RecorderRuns.
Import Recorder RecorderFacts.

Lemma speech_blocks maxd fs : forall f r l,
  is_recording r = true ->
  Forall speech_frame (f :: fs) ->
  frame_count l + Z.of_nat (length (f :: fs)) < max_frames r maxd ->
  run_stream maxd (r, l) (map Block (f :: fs))
  = (set_buffer (audio_buffer r ++ map audio_bytes (f :: fs)) r,
     {| speech_started := true;
        silence_frames := 0;
        frame_count := frame_count l + Z.of_nat (length (f :: fs));
        speech_start_calls :=
          if speech_started l then speech_start_calls l
          else S (speech_start_calls l) |}).
Proof.
  induction fs as [|g fs IH]; intros f r l Hrec Hall Hlt.
  - inversion Hall as [|? ? Hf _]; subst. unfold speech_frame in Hf.
    cbn [map run_stream fold_left on_event audio_callback].
    rewrite Hrec, Hf. cbn [negb].
    cbn [frame_count]. rewrite geb_false by (cbn [length] in Hlt; lia).
    reflexivity.
  - inversion Hall as [|? ? Hf Hall']; subst. unfold speech_frame in Hf.
    change (map Block (f :: g :: fs)) with (Block f :: map Block (g :: fs)).
    rewrite run_stream_cons.
    cbn [on_event audio_callback]. rewrite Hrec, Hf. cbn [negb].
    cbn [frame_count]. rewrite geb_false by (cbn [length] in Hlt; lia).
    rewrite IH.
    + cbn [audio_buffer set_buffer frame_count speech_started
             speech_start_calls map length].
      rewrite <- app_assoc. cbn [app].
      f_equal. f_equal. lia.
    + exact Hrec.
    + exact Hall'.
    + cbn [frame_count]. cbn [length] in Hlt |- *.
      change (max_frames (set_buffer _ r) maxd) with (max_frames r maxd).
      lia.
Qed.

Lemma silence_blocks maxd fs : forall r s c k,
  is_recording r = true ->
  Forall silence_frame fs ->
  s + Z.of_nat (length fs) < frames_for_silence r ->
  c + Z.of_nat (length fs) < max_frames r maxd ->
  run_stream maxd
    (r, {| speech_started := true; silence_frames := s; frame_count := c;
           speech_start_calls := k |})
    (map Block fs)
  = (set_buffer (audio_buffer r ++ map audio_bytes fs) r,
     {| speech_started := true;
        silence_frames := s + Z.of_nat (length fs);
        frame_count := c + Z.of_nat (length fs);
        speech_start_calls := k |}).
Proof.
  induction fs as [|f fs IH]; intros r s c k Hrec Hall Hs Hc.
  - cbn [map run_stream fold_left length]. rewrite app_nil_r.
    replace (set_buffer (audio_buffer r) r) with r by (destruct r; reflexivity).
    f_equal. f_equal; cbn; lia.
  - inversion Hall as [|? ? Hf Hall']; subst. unfold silence_frame in Hf.
    change (map Block (f :: fs)) with (Block f :: map Block fs).
    rewrite run_stream_cons.
    cbn [on_event audio_callback]. rewrite Hrec, Hf.
    cbn [negb speech_started silence_frames frame_count].
    rewrite (geb_false (s + 1)) by (cbn [length] in Hs; lia).
    rewrite (geb_false (c + 1)) by (cbn [length] in Hc; lia).
    cbn [speech_started silence_frames frame_count speech_start_calls].
    rewrite IH.
    + cbn [audio_buffer set_buffer map length].
      rewrite <- app_assoc. cbn [app].
      f_equal. f_equal; lia.
    + exact Hrec.
    + exact Hall'.
    + change (frames_for_silence (set_buffer _ r)) with (frames_for_silence r).
      cbn [length] in Hs. lia.
    + change (max_frames (set_buffer _ r) maxd) with (max_frames r maxd).
      cbn [length] in Hc. lia.
Qed.

(** The silence block that completes the silence run closes the recording. *)
Lemma closing_block maxd r s c k f :
  is_recording r = true ->
  silence_frame f ->
  frames_for_silence r <= s + 1 ->
  exists l',
    on_event maxd
      (r, {| speech_started := true; silence_frames := s; frame_count := c;
             speech_start_calls := k |})
      (Block f)
    = (set_recording false (set_buffer (audio_buffer r ++ [audio_bytes f]) r),
       l').
Proof.
  intros Hrec Hf Hs. unfold silence_frame in Hf.
  cbn [on_event audio_callback]. rewrite Hrec, Hf.
  cbn [negb speech_started silence_frames frame_count].
  rewrite (geb_true (s + 1)) by lia.
  eexists.
  destruct (c + 1 >=? _); reflexivity.
Qed.

End RecorderRuns.

(* ------------------------------------------------------------------ *)
(** *** Endpointing *)

Module Endpointing.
Import Recorder RecorderFacts RecorderBound RecorderRuns.

Lemma fresh_state_bounded r maxd :
  bounded (open_stream (set_buffer [] (set_recording true r))) maxd
    (open_stream (set_buffer [] (set_recording true r)), locals0).
Proof.
  unfold bounded. split; [apply same_settings_refl|].
  cbn [audio_buffer open_stream set_buffer length frame_count locals0].
  unfold capacity. repeat split; lia.
Qed.

(** Speech followed by a long enough silence: the segment is the speech
    and the first [frames_for_silence] silence blocks. *)
Lemma segment_after_silence r maxd sp si :
  is_recording r = false ->
  frame_duration_ms r <> 0 ->
  1 <= frames_for_silence r ->
  sp <> [] ->
  Forall speech_frame sp ->
  Forall silence_frame si ->
  frames_for_silence r <= Z.of_nat (length si) ->
  Z.of_nat (length sp) + frames_for_silence r <= max_frames r maxd ->
  let kept := sp ++ firstn (Z.to_nat (frames_for_silence r)) si in
  exists r',
    record r maxd (Opened (map Block (sp ++ si)))
    = Returned (Some (create_wav r (map audio_bytes kept))) r'
    /\ audio_buffer r' = map audio_bytes kept
    /\ is_recording r' = false
    /\ streams_opened r' = S (streams_opened r).
Proof.
  intros Hidle Hfd HN Hsp Hspeech Hsil Hlen Hmax kept.
  set (N := frames_for_silence r) in *.
  set (r1 := open_stream (set_buffer [] (set_recording true r))).
  assert (HN1 : frames_for_silence r1 = N) by reflexivity.
  assert (HM1 : max_frames r1 maxd = max_frames r maxd) by reflexivity.
  assert (Hrec1 : is_recording r1 = true) by reflexivity.
  (* the silence blocks: those kept, the closing one, the rest *)
  assert (Hcut : exists init x rest,
             si = init ++ x :: rest
             /\ Z.of_nat (length init) = N - 1
             /\ firstn (Z.to_nat N) si = init ++ [x]).
  { assert (Hne : firstn (Z.to_nat N) si <> []).
    { intros E. apply (f_equal (@length _)) in E.
      rewrite length_firstn in E. cbn in E. lia. }
    destruct (exists_last Hne) as (init & x & E).
    exists init, x, (skipn (Z.to_nat N) si). repeat split.
    - rewrite <- (firstn_skipn (Z.to_nat N) si) at 1. rewrite E.
      rewrite <- app_assoc. reflexivity.
    - apply (f_equal (@length _)) in E.
      rewrite length_firstn, length_app in E. cbn in E. lia.
    - exact E. }
  destruct Hcut as (init & x & rest & Esi & Hinit & Ekept).
  assert (Hsil' : Forall silence_frame init /\ silence_frame x).
  { rewrite Esi in Hsil. apply Forall_app in Hsil. destruct Hsil as [Hi Hx].
    inversion Hx; subst. split; assumption. }
  destruct Hsil' as [Hinit_sil Hx_sil].
  destruct sp as [|f fs]; [congruence|].
  (* the run *)
  assert (Hrun : exists l',
            run_stream maxd (r1, locals0) (map Block ((f :: fs) ++ si))
            = (set_recording false
                 (set_buffer (map audio_bytes ((f :: fs) ++ init ++ [x])) r1),
               l')).
  { rewrite map_app, run_stream_app.
    rewrite speech_blocks; [|exact Hrec1|exact Hspeech|].
    2:{ rewrite HM1. cbn [frame_count locals0]. lia. }
    rewrite Esi, map_app, run_stream_app.
    cbn [speech_started locals0 frame_count speech_start_calls].
    rewrite silence_blocks; [|reflexivity|exact Hinit_sil| |].
    2:{ change (frames_for_silence (set_buffer _ r1)) with N. lia. }
    2:{ change (max_frames (set_buffer _ r1) maxd) with (max_frames r maxd).
        lia. }
    change (map Block (x :: rest)) with (Block x :: map Block rest).
    rewrite run_stream_cons.
    edestruct closing_block as [l' El']; [| exact Hx_sil | | rewrite El'].
    - reflexivity.
    - change (frames_for_silence (set_buffer _ (set_buffer _ r1))) with N. lia.
    - rewrite run_stream_closed by reflexivity.
      exists l'. f_equal.
      unfold set_recording, set_buffer.
      cbn [audio_buffer sample_rate channels frame_duration_ms
             silence_duration_ms is_recording streams_opened map app].
      rewrite !map_app. cbn [map app]. rewrite <- !app_assoc.
      reflexivity. }
  destruct Hrun as [l' Hrun].
  unfold record. rewrite Hidle.
  change (frame_duration_ms (set_buffer [] (set_recording true r)))
    with (frame_duration_ms r).
  destruct (Z.eqb_spec (frame_duration_ms r) 0) as [E|_]; [contradiction|].
  fold r1. rewrite Hrun.
  cbn [is_recording set_recording audio_buffer set_buffer map app].
  subst kept. rewrite Ekept. cbn [map app].
  eexists. repeat split.
Qed.

(** The block on which the frame counter reaches the maximum closes the
    recording, speech or not. *)
Lemma closing_speech_block maxd r l f :
  is_recording r = true ->
  speech_frame f ->
  max_frames r maxd <= frame_count l + 1 ->
  exists l',
    on_event maxd (r, l) (Block f)
    = (set_recording false (set_buffer (audio_buffer r ++ [audio_bytes f]) r),
       l').
Proof.
  intros Hrec Hf Hm. unfold speech_frame in Hf.
  cbn [on_event audio_callback]. rewrite Hrec, Hf.
  cbn [negb frame_count]. rewrite geb_true by exact Hm.
  eexists. reflexivity.
Qed.

(** Uninterrupted speech is cut off when the frame counter reaches the
    maximum: the segment is the first [capacity] blocks. *)
Lemma speech_only_is_cut_off r maxd fs :
  is_recording r = false ->
  frame_duration_ms r <> 0 ->
  Forall speech_frame fs ->
  capacity r maxd <= Z.of_nat (length fs) ->
  let kept := firstn (Z.to_nat (capacity r maxd)) fs in
  exists r',
    record r maxd (Opened (map Block fs))
    = Returned (Some (create_wav r (map audio_bytes kept))) r'
    /\ audio_buffer r' = map audio_bytes kept
    /\ Z.of_nat (length (audio_buffer r')) = capacity r maxd.
Proof.
  intros Hidle Hfd Hspeech Hlen kept.
  set (M := capacity r maxd) in *.
  assert (HM : 1 <= M /\ max_frames r maxd <= M
               /\ (M = 1 \/ M = max_frames r maxd))
    by (unfold M, capacity; lia).
  clearbody M. set (mf := max_frames r maxd) in *.
  set (r1 := open_stream (set_buffer [] (set_recording true r))).
  assert (Hcut : exists init x rest,
             fs = init ++ x :: rest
             /\ Z.of_nat (length init) = M - 1
             /\ firstn (Z.to_nat M) fs = init ++ [x]).
  { assert (Hne : firstn (Z.to_nat M) fs <> []).
    { intros E. apply (f_equal (@length _)) in E.
      rewrite length_firstn in E. cbn in E. lia. }
    destruct (exists_last Hne) as (init & x & E).
    exists init, x, (skipn (Z.to_nat M) fs). repeat split.
    - rewrite <- (firstn_skipn (Z.to_nat M) fs) at 1. rewrite E.
      rewrite <- app_assoc. reflexivity.
    - apply (f_equal (@length _)) in E.
      rewrite length_firstn, length_app in E. cbn in E. lia.
    - exact E. }
  destruct Hcut as (init & x & rest & Efs & Hinit & Ekept).
  assert (Hsp' : Forall speech_frame init /\ speech_frame x).
  { rewrite Efs in Hspeech. apply Forall_app in Hspeech.
    destruct Hspeech as [Hi Hx]. inversion Hx; subst. split; assumption. }
  destruct Hsp' as [Hinit_sp Hx_sp].
  assert (Hrun : exists l',
            run_stream maxd (r1, locals0) (map Block fs)
            = (set_recording false
                 (set_buffer (map audio_bytes (init ++ [x])) r1), l')).
  { rewrite Efs, map_app, run_stream_app.
    change (map Block (x :: rest)) with (Block x :: map Block rest).
    destruct init as [|f init'].
    - change (run_stream maxd (r1, locals0) (map Block []))
        with (r1, locals0).
      rewrite run_stream_cons.
      edestruct (closing_speech_block maxd r1 locals0 x) as [l' El'];
        [reflexivity | exact Hx_sp | | rewrite El'].
      + change (max_frames r1 maxd) with mf. clearbody mf.
        cbn [length] in Hinit. cbn [frame_count locals0]. lia.
      + rewrite run_stream_closed by reflexivity.
        exists l'. reflexivity.
    - rewrite speech_blocks; [|reflexivity|exact Hinit_sp|].
      2:{ change (max_frames r1 maxd) with mf. clearbody mf.
          cbn [frame_count locals0]. cbn [length] in Hinit |- *. lia. }
      rewrite run_stream_cons.
      edestruct closing_speech_block as [l' El'];
        [| exact Hx_sp | | rewrite El'].
      + reflexivity.
      + change (max_frames (set_buffer _ r1) maxd) with mf. clearbody mf.
        cbn [frame_count locals0]. lia.
      + rewrite run_stream_closed by reflexivity.
        exists l'. f_equal.
        unfold set_recording, set_buffer.
        cbn [audio_buffer sample_rate channels frame_duration_ms
               silence_duration_ms is_recording streams_opened map app].
        rewrite !map_app. cbn [map app]. rewrite <- ?app_assoc.
        reflexivity. }
  destruct Hrun as [l' Hrun].
  unfold record. rewrite Hidle.
  change (frame_duration_ms (set_buffer [] (set_recording true r)))
    with (frame_duration_ms r).
  destruct (Z.eqb_spec (frame_duration_ms r) 0) as [E|_]; [contradiction|].
  fold r1. rewrite Hrun.
  cbn [is_recording set_recording audio_buffer set_buffer].
  subst kept. rewrite Ekept.
  assert (Hbuf : map audio_bytes (init ++ [x]) <> []).
  { rewrite map_app. cbn. intros E. apply app_eq_nil in E.
    destruct E; discriminate. }
  destruct (map audio_bytes (init ++ [x])) as [|b bs] eqn:Eb; [congruence|].
  eexists. split; [reflexivity|]. split; [reflexivity|].
  cbn [audio_buffer set_recording set_buffer]. rewrite <- Eb.
  rewrite length_map, length_app. cbn [length]. lia.
Qed.

Lemma blocks_nonneg evs : 0 <= blocks evs.
Proof.
  induction evs as [|[f|] evs IH]; cbn [blocks]; lia.
Qed.

(** A recording that has heard no speech and meets only silence: nothing is
    collected, and the flag stays set exactly as long as nobody stops the
    recording and the frame counter stays below the maximum. *)
Lemma silent_run maxd evs : forall r l,
  Forall silent_event evs ->
  is_recording r = true ->
  audio_buffer r = [] ->
  speech_started l = false ->
  audio_buffer (fst (run_stream maxd (r, l) evs)) = []
  /\ is_recording (fst (run_stream maxd (r, l) evs))
     = negb (stop_requested evs)
       && ((blocks evs =? 0)
           || (frame_count l + blocks evs <? max_frames r maxd)).
Proof.
  induction evs as [|e evs IH]; intros r l Hall Hrec Hbuf Hst.
  - cbn. split; [exact Hbuf | exact Hrec].
  - inversion Hall as [|? ? He Hall']; subst.
    rewrite run_stream_cons.
    destruct e as [f|].
    + unfold silent_event, silence_frame in He.
      cbn [on_event audio_callback]. rewrite Hrec, He, Hst. cbn [negb].
      pose proof (blocks_nonneg evs) as Hb.
      cbn [stop_requested existsb orb blocks].
      fold (stop_requested evs).
      destruct (Z.leb_spec (max_frames r maxd) (frame_count l + 1)) as [Hm|Hm].
      * rewrite geb_true by exact Hm.
        rewrite run_stream_closed by reflexivity.
        cbn [fst audio_buffer set_recording is_recording].
        split; [exact Hbuf|].
        replace (1 + blocks evs =? 0) with false
          by (symmetry; apply Z.eqb_neq; lia).
        replace (frame_count l + (1 + blocks evs) <? max_frames r maxd)
          with false by (symmetry; apply Z.ltb_ge; lia).
        now rewrite andb_false_r.
      * rewrite geb_false by exact Hm.
        destruct (IH r {| speech_started := speech_started l;
                          silence_frames := silence_frames l;
                          frame_count := frame_count l + 1;
                          speech_start_calls := speech_start_calls l |}
                    Hall' Hrec Hbuf Hst) as [IH1 IH2].
        split; [exact IH1|]. rewrite IH2. cbn [frame_count].
        f_equal.
        replace (1 + blocks evs =? 0) with false
          by (symmetry; apply Z.eqb_neq; lia).
        cbn [orb].
        destruct (Z.eqb_spec (blocks evs) 0) as [E|E].
        -- rewrite E. cbn [orb]. symmetry. apply Z.ltb_lt. lia.
        -- cbn [orb]. f_equal. lia.
    + cbn [on_event fst snd].
      rewrite run_stream_closed by reflexivity.
      cbn [fst audio_buffer stop set_recording is_recording].
      split; [exact Hbuf|]. reflexivity.
Qed.

End Endpointing.

(* ================================================================== *)
(** ** Properties of the recorder *)
(* ================================================================== *)

Module RecorderClaims.
Import Recorder RecorderFacts RecorderBound RecorderRuns Endpointing.

(** C2.  With 30 ms frames and a 900 ms silence threshold (30 frames), and
    a maximum duration of at least 1.5 s, 20 speech blocks followed by 35
    silence blocks make [record] return one segment of exactly 50 blocks:
    the 20 speech blocks and the first 30 silence blocks.  The last 5
    silence blocks are not appended. *)
Theorem twenty_speech_then_silence r maxd sp si :
  is_recording r = false ->
  frame_duration_ms r = 30 ->
  silence_duration_ms r = 900 ->
  1500 <= maxd ->
  length sp = 20%nat -> Forall speech_frame sp ->
  length si = 35%nat -> Forall silence_frame si ->
  exists r',
    record r maxd (Opened (map Block (sp ++ si)))
    = Returned (Some (create_wav r (map audio_bytes (sp ++ firstn 30 si)))) r'
    /\ audio_buffer r' = map audio_bytes sp ++ map audio_bytes (firstn 30 si)
    /\ length (audio_buffer r') = 50%nat
    /\ is_recording r' = false.
Proof.
  intros Hidle Hfd Hsd Hmax Hsp Hspeech Hsi Hsil.
  assert (HN : frames_for_silence r = 30)
    by (unfold frames_for_silence; rewrite Hfd, Hsd; reflexivity).
  assert (HM : 50 <= max_frames r maxd).
  { unfold max_frames. rewrite Hfd.
    rewrite Z.quot_div_nonneg by lia.
    apply Z.div_le_lower_bound; lia. }
  destruct (segment_after_silence r maxd sp si) as (r' & E & Hbuf & Hrec & _);
    try assumption; try lia.
  - intros ->. discriminate.
  - rewrite HN in *. change (Z.to_nat 30) with 30%nat in *.
    exists r'. repeat split; try assumption.
    + rewrite Hbuf. apply map_app.
    + rewrite Hbuf, length_map, length_app, length_firstn. lia.
Qed.

Lemma twenty_speech_then_silence_witness :
  exists r',
    record Samples.recorder900 15000
      (Opened (map Block (Samples.speech20 ++ Samples.silence35)))
    = Returned
        (Some (create_wav Samples.recorder900
                 (map audio_bytes
                    (Samples.speech20 ++ firstn 30 Samples.silence35)))) r'
    /\ audio_buffer r'
       = map audio_bytes Samples.speech20
         ++ map audio_bytes (firstn 30 Samples.silence35)
    /\ length (audio_buffer r') = 50%nat
    /\ is_recording r' = false.
Proof.
  apply (twenty_speech_then_silence Samples.recorder900 15000
           Samples.speech20 Samples.silence35);
    try reflexivity; try lia;
    apply Forall_forall; intros f Hf; apply repeat_spec in Hf; subst;
    reflexivity.
Defined.

(** C3, as the claim states it, fails when the maximum duration is shorter
    than one frame: the limit is 0 and the segment has one block. *)
Lemma one_block_beyond_zero_limit :
  exists wav r',
    record Samples.recorder900 10 (Opened [Block Samples.speech_block])
    = Returned (Some wav) r'
    /\ max_frames Samples.recorder900 10 = 0
    /\ max_frames Samples.recorder900 10
       < Z.of_nat (length (audio_buffer r')).
Proof.
  eexists. eexists. split; [reflexivity|]. split; [reflexivity|].
  cbn. lia.
Qed.

(** C3 (amended).  Whatever the microphone delivers, the segment [record]
    returns holds at most [max 1 (max_duration_ms / frame_duration_ms)]
    blocks. *)
Theorem segment_within_capacity r maxd mic wav r' :
  record r maxd mic = Returned (Some wav) r' ->
  wav = create_wav r' (audio_buffer r')
  /\ Z.of_nat (length (audio_buffer r')) <= Z.max 1 (max_frames r maxd).
Proof.
  unfold record. destruct (is_recording r); [discriminate|].
  destruct (frame_duration_ms _ =? 0); [discriminate|].
  destruct mic as [|evs]; [discriminate|].
  pose proof (bounded_run _ maxd evs _ (fresh_state_bounded r maxd)) as Hb.
  destruct (run_stream maxd _ evs) as [r1 l1].
  destruct Hb as (_ & Hlen & Hcap & _).
  destruct (is_recording r1); [discriminate|].
  destruct (audio_buffer r1) eqn:Eb; [discriminate|].
  intros H. inversion H; subst. cbn [audio_buffer set_recording].
  rewrite Eb. split; [reflexivity|].
  unfold capacity in Hcap.
  change (max_frames (open_stream _) maxd) with (max_frames r maxd) in Hcap.
  lia.
Qed.

Lemma segment_within_capacity_witness :
  Z.of_nat (length [audio_bytes Samples.speech_block])
  <= Z.max 1 (max_frames Samples.recorder900 10).
Proof.
  refine (proj2 (segment_within_capacity Samples.recorder900 10
                   (Opened [Block Samples.speech_block]) _
                   (set_buffer [audio_bytes Samples.speech_block]
                      (open_stream Samples.recorder900)) _)).
  reflexivity.
Defined.

(** C4, as the claim states it, fails: two silence blocks with a 60 ms
    maximum end the recording with [None] although nobody stopped it. *)
Lemma silence_times_out_unasked :
  Forall silent_event [Block Samples.silence_block; Block Samples.silence_block]
  /\ stop_requested [Block Samples.silence_block; Block Samples.silence_block]
     = false
  /\ exists r',
       record Samples.recorder900 60
         (Opened [Block Samples.silence_block; Block Samples.silence_block])
       = Returned None r'.
Proof.
  split; [repeat constructor|]. split; [reflexivity|].
  eexists. reflexivity.
Qed.

(** C4 (amended).  When no block is classified as speech, [record] never
    returns a segment: the silence is dropped, nothing is collected, and a
    recording started afresh returns [None] exactly when it is stopped from
    outside or the frame counter reaches the maximum.  The maximum is the
    source's [max_frames], and one block when that is below one; [maxd] is
    [int(max_duration * 1000)], so a [max_duration] of 8.19 s is 8189 and
    272 blocks of 30 ms (see [DurationFacts]). *)
Theorem silence_gives_no_segment r maxd evs :
  Forall silent_event evs ->
  (forall wav r', record r maxd (Opened evs) <> Returned (Some wav) r')
  /\ (is_recording r = false ->
      frame_duration_ms r <> 0 ->
      ((exists r',
          record r maxd (Opened evs) = Returned None r'
          /\ audio_buffer r' = [])
       <-> (stop_requested evs = true \/ capacity r maxd <= blocks evs))).
Proof.
  intros Hall.
  set (r1 := open_stream (set_buffer [] (set_recording true r))).
  destruct (silent_run maxd evs r1 locals0 Hall eq_refl eq_refl eq_refl)
    as [Hbuf Hflag].
  change (max_frames r1 maxd) with (max_frames r maxd) in Hflag.
  cbn [frame_count locals0] in Hflag.
  pose proof (blocks_nonneg evs) as Hb.
  split.
  - intros wav r'. unfold record.
    destruct (is_recording r); [discriminate|].
    destruct (frame_duration_ms _ =? 0); [discriminate|].
    fold r1. destruct (run_stream maxd (r1, locals0) evs) as [r2 l2].
    cbn [fst] in Hbuf. rewrite Hbuf.
    destruct (is_recording r2); discriminate.
  - intros Hidle Hfd. unfold record. rewrite Hidle.
    change (frame_duration_ms (set_buffer [] (set_recording true r)))
      with (frame_duration_ms r).
    destruct (Z.eqb_spec (frame_duration_ms r) 0) as [E|_]; [contradiction|].
    fold r1. destruct (run_stream maxd (r1, locals0) evs) as [r2 l2].
    cbn [fst] in Hbuf, Hflag. rewrite Hbuf.
    unfold capacity. set (mf := max_frames r maxd) in *. clearbody mf.
    destruct (stop_requested evs); cbn [negb andb] in Hflag.
    + rewrite Hflag. split; [intros _; now left|].
      intros _. eexists. split; [reflexivity|exact Hbuf].
    + destruct (Z.eqb_spec (blocks evs) 0) as [E0|E0];
        cbn [orb] in Hflag.
      * rewrite Hflag. split.
        -- intros (r' & Hr & _). discriminate.
        -- intros [Hs|Hc]; [discriminate|lia].
      * destruct (Z.ltb_spec (0 + blocks evs) mf) as [Hlt|Hge];
          rewrite Hflag.
        -- split.
           ++ intros (r' & Hr & _). discriminate.
           ++ intros [Hs|Hc]; [discriminate|lia].
        -- split; [intros _; right; lia|].
           intros _. eexists. split; [reflexivity|exact Hbuf].
Qed.

Lemma silence_gives_no_segment_witness :
  exists r',
    record Samples.recorder900 60
      (Opened [Block Samples.silence_block; StopRequest])
    = Returned None r'
    /\ audio_buffer r' = [].
Proof.
  refine (proj2 (proj2 (silence_gives_no_segment Samples.recorder900 60
            [Block Samples.silence_block; StopRequest] _) _ _) _).
  - repeat constructor.
  - reflexivity.
  - discriminate.
  - left. reflexivity.
Defined.

(** C5, as the claim states it, fails: a loud block on which the
    classifier raises is handled as speech, not as silence. *)
Lemma loud_failure_is_speech :
  vad_is_speech Samples.loud_failure = None
  /\ is_speech Samples.loud_failure = true
  /\ audio_callback 15000 (Samples.recording900, locals0) Samples.loud_failure
     <> audio_callback 15000 (Samples.recording900, locals0)
          (with_vad (Some false) Samples.loud_failure)
  /\ exists r' l',
       audio_callback 15000 (Samples.recording900, locals0)
         Samples.loud_failure = Some (r', l')
       /\ audio_buffer r' = [audio_bytes Samples.loud_failure]
       /\ speech_started l' = true.
Proof.
  split; [reflexivity|]. split; [reflexivity|]. split.
  - discriminate.
  - eexists. eexists. split; [reflexivity|]. split; reflexivity.
Qed.

(** C5 (amended).  A block on which the classifier raises is classified
    by the level threshold instead: the callback handles it exactly as a
    block the classifier had answered with [level > 0.01].  The failure
    touches that block only, the run that follows is the same, and the
    callback is never aborted by it. *)
Theorem classifier_failure_uses_threshold maxd st f :
  vad_is_speech f = None ->
  let f' := with_vad (Some (above_threshold (level f))) f in
  is_speech f = above_threshold (level f)
  /\ audio_callback maxd st f = audio_callback maxd st f'
  /\ (is_recording (fst st) = true -> audio_callback maxd st f <> None)
  /\ forall evs,
       run_stream maxd st (Block f :: evs)
       = run_stream maxd st (Block f' :: evs).
Proof.
  intros Hf f'.
  assert (Hs : is_speech f = above_threshold (level f))
    by (unfold is_speech; now rewrite Hf).
  assert (Hcb : audio_callback maxd st f = audio_callback maxd st f').
  { destruct st as [r l]. unfold audio_callback.
    replace (is_speech f') with (is_speech f) by (rewrite Hs; reflexivity).
    reflexivity. }
  repeat split.
  - exact Hs.
  - exact Hcb.
  - destruct st as [r l]. cbn [fst]. intros Hrec.
    destruct (audio_callback_runs maxd r l f Hrec) as [st' E].
    rewrite E. discriminate.
  - intros evs. rewrite !run_stream_cons. cbn [on_event].
    now rewrite Hcb.
Qed.

Lemma classifier_failure_uses_threshold_witness :
  audio_callback 15000 (Samples.recording900, locals0) Samples.loud_failure
  = audio_callback 15000 (Samples.recording900, locals0)
      (with_vad (Some (above_threshold (level Samples.loud_failure)))
         Samples.loud_failure).
Proof.
  refine (proj1 (proj2 (classifier_failure_uses_threshold 15000
            (Samples.recording900, locals0) Samples.loud_failure _))).
  reflexivity.
Defined.

End RecorderClaims.

(* ================================================================== *)
(** ** Properties of the wake-word trigger *)
(* ================================================================== *)

Module WakeWordClaims.
Import WakeWord.

Lemma listen_cons d e evs : listen d (e :: evs) = listen (on_event d e) evs.
Proof. reflexivity. Qed.

(** After [stop] the callback is not called any more. *)
Lemma stopped_detector_is_silent evs : forall d,
  stop_event d = true -> activations (listen d evs) = activations d.
Proof.
  induction evs as [|e evs IH]; intros d H; [reflexivity|].
  rewrite listen_cons. destruct e as [k|].
  - cbn [on_event]. unfold audio_callback. rewrite H. apply IH, H.
  - rewrite IH by reflexivity. reflexivity.
Qed.

(** C6, as the claim states it, fails: two positive answers in a row call
    the callback twice; nothing pauses the scan after the first. *)
Lemma repeated_match_activates_twice :
  activations Samples.listening_detector = 0%nat
  /\ activations (listen Samples.listening_detector [Heard 0; Heard 0])
     = 2%nat
  /\ stop_event (listen Samples.listening_detector [Heard 0]) = false
  /\ is_listening (listen Samples.listening_detector [Heard 0]) = true.
Proof. repeat split. Qed.

(** C6 (amended).  While the detector has not been stopped, every block
    with a positive answer calls the callback exactly once, and the scan
    goes on unchanged afterwards: the calls made over a run are as many as
    the positive blocks that arrive before [stop]. *)
Theorem every_match_activates d evs :
  callback d = true ->
  stop_event d = false ->
  activations (listen d evs) = (activations d + matches_before_stop evs)%nat
  /\ forall k, 0 <= k ->
       exists d',
         audio_callback d k = Some d'
         /\ activations d' = S (activations d)
         /\ stop_event d' = false
         /\ is_listening d' = is_listening d
         /\ callback d' = true.
Proof.
  intros Hcb Hstop. split.
  - revert d Hcb Hstop.
    induction evs as [|e evs IH]; intros d Hcb Hstop.
    + cbn. lia.
    + rewrite listen_cons. destruct e as [k|].
      * cbn [on_event matches_before_stop]. unfold audio_callback.
        rewrite Hstop, Hcb.
        destruct (k >=? 0).
        -- rewrite IH by (cbn; first [assumption | reflexivity]).
           cbn [activations]. lia.
        -- rewrite IH by assumption. lia.
      * cbn [on_event matches_before_stop].
        rewrite stopped_detector_is_silent by reflexivity.
        cbn [activations stop]. lia.
  - intros k Hk. unfold audio_callback. rewrite Hstop, Hcb.
    replace (k >=? 0) with true
      by (symmetry; rewrite Z.geb_leb; apply Z.leb_le; exact Hk).
    eexists. split; [reflexivity|].
    cbn [activations stop_event is_listening callback].
    repeat split; first [assumption | reflexivity].
Qed.

Lemma every_match_activates_witness :
  activations (listen Samples.listening_detector [Heard (-1); Heard 0; Heard 0])
  = (activations Samples.listening_detector
     + matches_before_stop [Heard (-1); Heard 0; Heard 0])%nat.
Proof.
  refine (proj1 (every_match_activates Samples.listening_detector
                   [Heard (-1); Heard 0; Heard 0] _ _)); reflexivity.
Defined.

End WakeWordClaims.

(* ================================================================== *)
(** ** Properties of the playback sink *)
(* ================================================================== *)

Module TextFacts.
Import Text.

Lemma append_nil_r s : String.append s EmptyString = s.
Proof. induction s as [|c s IH]; cbn; [reflexivity | now rewrite IH]. Qed.

Lemma append_assoc s1 s2 s3 :
  String.append (String.append s1 s2) s3
  = String.append s1 (String.append s2 s3).
Proof. induction s1 as [|c s1 IH]; cbn; [reflexivity | now rewrite IH]. Qed.

(** Stripping keeps a string non-empty as soon as it holds a character that
    is not white space. *)
Lemma rstrip_truthy s : all_space s = false -> truthy (rstrip s) = true.
Proof.
  induction s as [|c s IH]; cbn [all_space rstrip]; [discriminate|].
  intros H. destruct (rstrip s) eqn:E; [|reflexivity].
  destruct (is_space c); [|reflexivity].
  cbn [andb] in H. specialize (IH H). discriminate.
Qed.

Lemma lstrip_all_space s : all_space s = false -> all_space (lstrip s) = false.
Proof.
  induction s as [|c s IH]; cbn [all_space lstrip]; [discriminate|].
  destruct (is_space c) eqn:E; cbn [andb]; [exact IH|].
  intros _. cbn [all_space]. now rewrite E.
Qed.

Lemma strip_truthy s : all_space s = false -> truthy (strip s) = true.
Proof. intros H. apply rstrip_truthy, lstrip_all_space, H. Qed.

End TextFacts.

Module TtsFacts.
Import Tts TextFacts TtsMore.

Lemma ending_is_not_space c :
  Text.char_in c sentence_endings = true -> Text.is_space c = false.
Proof.
  unfold sentence_endings. cbn [Text.char_in].
  rewrite !orb_true_iff. rewrite !Ascii.eqb_eq.
  intros [H|[H|[H|[H|H]]]]; subst; try reflexivity; discriminate.
Qed.

Lemma one_sentence_not_all_space s :
  one_sentence s = true -> Text.all_space s = false.
Proof.
  induction s as [|c s IH]; [discriminate|].
  cbn [one_sentence Text.all_space]. destruct s as [|d s'].
  - intros H. now rewrite (ending_is_not_space c H).
  - intros H. apply andb_true_iff in H. destruct H as [_ H].
    rewrite (IH H). apply andb_false_r.
Qed.

Lemma split_first_some buffer : forall head tail,
  split_first buffer = Some (head, tail) ->
  buffer = String.append head tail /\ one_sentence head = true.
Proof.
  induction buffer as [|c rest IH]; intros head tail; [discriminate|].
  cbn [split_first].
  destruct (Text.char_in c sentence_endings) eqn:Ec.
  - intros H. inversion H; subst. split; [reflexivity|]. exact Ec.
  - destruct (split_first rest) as [[h t]|]; [|discriminate].
    intros H. inversion H; subst.
    destruct (IH h tail eq_refl) as [E Hone]. split.
    + cbn. now rewrite <- E.
    + cbn [one_sentence]. destruct h as [|d h']; [discriminate|].
      rewrite Ec. exact Hone.
Qed.

Lemma split_first_none buffer :
  split_first buffer = None -> has_ending buffer = false.
Proof.
  induction buffer as [|c rest IH]; [reflexivity|].
  cbn [split_first has_ending].
  destruct (Text.char_in c sentence_endings); [discriminate|].
  destruct (split_first rest) as [[h t]|]; [discriminate|].
  intros _. now apply IH.
Qed.

Lemma spoken_speak w t text lang wait :
  spoken (speak w t text lang wait) = spoken t ++ [text].
Proof.
  unfold speak, spoken.
  cbn [has_pygame log_utterance].
  destruct (has_pygame t); cbn [negb];
    [destruct (synth_ok _); cbn [negb];
     [destruct (play_raises _); [|destruct wait; [destruct (interrupted _)|]]|]|];
    cbn [utterances set_flags log_utterance]; rewrite map_app; reflexivity.
Qed.

Lemma speak_keeps_flag_clear w t text lang :
  undisturbed w -> stop_event t = false ->
  stop_event (speak w t text lang true) = false.
Proof.
  intros Hw Ht. unfold speak.
  cbn [has_pygame log_utterance].
  destruct (has_pygame t); cbn [negb]; [|exact Ht].
  destruct (synth_ok _); cbn [negb]; [|exact Ht].
  destruct (play_raises _); [reflexivity|].
  rewrite Hw. reflexivity.
Qed.

(** What [speak_streaming] has said once the stream has ended, from any
    buffer, as long as nobody interrupts. *)
Lemma streaming_from w lang chunks : forall t buffer,
  undisturbed w -> stop_event t = false ->
  exists sentences rest,
    String.append buffer (Text.join chunks)
    = String.append (Text.join sentences) rest
    /\ Forall (fun s => one_sentence s = true) sentences
    /\ (length sentences <= length chunks)%nat
    /\ spoken (speak_streaming_from w t buffer chunks lang)
       = spoken t ++ map Text.strip sentences
         ++ (if Text.truthy (Text.strip rest) then [Text.strip rest] else []).
Proof.
  induction chunks as [|chunk chunks IH]; intros t buffer Hw Ht.
  - exists [], buffer. cbn [Text.join fold_right map app length].
    rewrite append_nil_r. repeat split; [constructor|lia|].
    cbn [speak_streaming_from].
    destruct (Text.truthy (Text.strip buffer)).
    + apply spoken_speak.
    + now rewrite app_nil_r.
  - cbn [speak_streaming_from Text.join fold_right].
    fold (Text.join chunks). rewrite <- append_assoc.
    destruct (split_first (String.append buffer chunk)) as [[head tail]|] eqn:E.
    + destruct (split_first_some _ _ _ E) as [Eb Hone].
      rewrite (strip_truthy head (one_sentence_not_all_space head Hone)).
      rewrite speak_keeps_flag_clear by assumption.
      destruct (IH (speak w t (Text.strip head) lang true) tail Hw
                  (speak_keeps_flag_clear w t _ lang Hw Ht))
        as (sentences & rest & Etext & Hall & Hlen & Hsp).
      exists (head :: sentences), rest. repeat split.
      * rewrite Eb, append_assoc, Etext. cbn [Text.join fold_right].
        now rewrite append_assoc.
      * constructor; assumption.
      * cbn [length]. lia.
      * rewrite Hsp, spoken_speak. cbn [map]. rewrite <- app_assoc.
        reflexivity.
    + destruct (IH t (String.append buffer chunk) Hw Ht)
        as (sentences & rest & Etext & Hall & Hlen & Hsp).
      exists sentences, rest. repeat split; try assumption.
      cbn [length]. lia.
Qed.

Lemma count_endings_app s1 s2 :
  count_endings (String.append s1 s2)
  = (count_endings s1 + count_endings s2)%nat.
Proof.
  induction s1 as [|c s1 IH]; [reflexivity|].
  cbn [String.append count_endings]. rewrite IH. lia.
Qed.

Lemma no_ending_count s : has_ending s = false <-> count_endings s = 0%nat.
Proof.
  induction s as [|c s IH]; [split; reflexivity|].
  cbn [has_ending count_endings].
  destruct (Text.char_in c sentence_endings); cbn [orb].
  - split; [discriminate|lia].
  - rewrite IH. split; lia.
Qed.

Lemma one_sentence_count s : one_sentence s = true -> count_endings s = 1%nat.
Proof.
  induction s as [|c s IH]; [discriminate|].
  cbn [one_sentence count_endings]. destruct s as [|d s'].
  - intros ->. reflexivity.
  - intros H. apply andb_true_iff in H. destruct H as [Hc Hs].
    apply negb_true_iff in Hc. rewrite Hc. rewrite (IH Hs). reflexivity.
Qed.

Lemma cut_without_ending s1 : forall acc s2,
  has_ending s1 = false ->
  cut_at_endings acc (String.append s1 s2)
  = cut_at_endings (String.append acc s1) s2.
Proof.
  induction s1 as [|c s1 IH]; intros acc s2 H.
  - cbn [String.append]. now rewrite append_nil_r.
  - cbn [has_ending] in H. apply orb_false_iff in H. destruct H as [Hc Hs].
    cbn [String.append cut_at_endings]. rewrite Hc.
    rewrite IH by exact Hs. rewrite append_assoc. reflexivity.
Qed.

Lemma cut_at_first_ending s : forall acc head tail rest,
  split_first s = Some (head, tail) ->
  cut_at_endings acc (String.append s rest)
  = String.append acc head :: cut_at_endings EmptyString (String.append tail rest).
Proof.
  induction s as [|c s IH]; intros acc head tail rest; [discriminate|].
  cbn [split_first String.append cut_at_endings].
  destruct (Text.char_in c sentence_endings).
  - intros H. inversion H; subst. reflexivity.
  - destruct (split_first s) as [[h t]|] eqn:E; [|discriminate].
    intros H. inversion H; subst.
    rewrite (IH _ h tail rest eq_refl).
    rewrite append_assoc. reflexivity.
Qed.

Lemma stripped_sentence head pieces :
  one_sentence head = true ->
  stripped_nonempty (head :: pieces)
  = Text.strip head :: stripped_nonempty pieces.
Proof.
  intros H. unfold stripped_nonempty. cbn [map filter].
  now rewrite (strip_truthy head (one_sentence_not_all_space head H)).
Qed.

Lemma join_cut s : forall acc,
  Text.join (cut_at_endings acc s) = String.append acc s.
Proof.
  induction s as [|c s IH]; intros acc.
  - cbn [cut_at_endings]. destruct acc; cbn; [reflexivity|].
    now rewrite !append_nil_r.
  - cbn [cut_at_endings].
    destruct (Text.char_in c sentence_endings).
    + cbn [Text.join fold_right]. fold (Text.join (cut_at_endings EmptyString s)).
      rewrite IH. cbn [String.append]. now rewrite append_assoc.
    + rewrite IH. now rewrite append_assoc.
Qed.

Lemma speak_flag w t text lang :
  stop_event t = false ->
  stop_event (speak w t text lang true) = halts w t (length (utterances t)).
Proof.
  intros Ht. unfold speak, halts. cbn [has_pygame log_utterance].
  destruct (has_pygame t); cbn [negb andb]; [|exact Ht].
  destruct (synth_ok _); cbn [negb andb]; [|exact Ht].
  destruct (play_raises _); cbn [negb andb]; [reflexivity|].
  destruct (interrupted _); reflexivity.
Qed.

Lemma speak_counts w t text lang wait :
  length (utterances (speak w t text lang wait)) = S (length (utterances t))
  /\ has_pygame (speak w t text lang wait) = has_pygame t.
Proof.
  unfold speak. cbn [has_pygame log_utterance].
  destruct (has_pygame t) eqn:Ep; cbn [negb];
    [destruct (synth_ok _); cbn [negb];
     [destruct (play_raises _);
      [|destruct wait; [destruct (interrupted _)|]]|]|];
    cbn [utterances has_pygame set_flags log_utterance];
    rewrite length_app; cbn [length]; split; try lia; try exact Ep;
    reflexivity.
Qed.

Lemma until_halt_ext h1 h2 sentences : forall n closing,
  (forall k, h1 k = h2 k) ->
  until_halt h1 n sentences closing = until_halt h2 n sentences closing.
Proof.
  induction sentences as [|s sentences IH]; intros n closing H;
    [reflexivity|].
  cbn [until_halt]. rewrite H. now rewrite (IH (S n) closing H).
Qed.

Lemma until_halt_quiet halt sentences : forall n closing,
  (forall k, halt k = false) ->
  until_halt halt n sentences closing = sentences ++ closing.
Proof.
  induction sentences as [|s sentences IH]; intros n closing H;
    [reflexivity|].
  cbn [until_halt app]. rewrite H. now rewrite (IH (S n) closing H).
Qed.

(** The pieces cut off while the chunks come in are whole sentences, and
    no more of them than chunks. *)
Lemma cuts_are_sentences chunks : forall buffer,
  Forall (fun s => one_sentence s = true)
    (firstn (cuts (count_endings buffer) chunks)
       (cut_at_endings EmptyString
          (String.append buffer (Text.join chunks))))
  /\ (cuts (count_endings buffer) chunks <= length chunks)%nat.
Proof.
  induction chunks as [|chunk chunks IH]; intros buffer.
  - cbn [cuts firstn length]. split; [constructor|lia].
  - cbn [cuts Text.join fold_right length]. fold (Text.join chunks).
    rewrite <- count_endings_app, <- append_assoc.
    destruct (split_first (String.append buffer chunk))
      as [[head tail]|] eqn:E.
    + destruct (split_first_some _ _ _ E) as [Eb Hone].
      assert (Hcount : count_endings (String.append buffer chunk)
                       = S (count_endings tail)).
      { rewrite Eb, count_endings_app, (one_sentence_count _ Hone).
        reflexivity. }
      rewrite Hcount.
      rewrite (cut_at_first_ending _ EmptyString head tail _ E).
      cbn [String.append firstn].
      destruct (IH tail) as [Hall Hlen].
      split; [constructor; assumption|lia].
    + pose proof (split_first_none _ E) as Hnone.
      apply no_ending_count in Hnone. rewrite Hnone.
      destruct (IH (String.append buffer chunk)) as [Hall Hlen].
      rewrite Hnone in Hall, Hlen.
      split; [exact Hall|lia].
Qed.

(** What [speak_streaming] says from any buffer: the sentences cut off
    while the chunks came in, up to the first that is cut short, then the
    rest of the text. *)
Lemma streaming_general w lang chunks : forall t buffer,
  stop_event t = false ->
  spoken (speak_streaming_from w t buffer chunks lang)
  = spoken t
    ++ until_halt (halts w t) (length (utterances t))
         (map Text.strip
            (firstn (cuts (count_endings buffer) chunks)
               (cut_at_endings EmptyString
                  (String.append buffer (Text.join chunks)))))
         (closing_utterance
            (skipn (cuts (count_endings buffer) chunks)
               (cut_at_endings EmptyString
                  (String.append buffer (Text.join chunks))))).
Proof.
  induction chunks as [|chunk chunks IH]; intros t buffer Ht.
  - cbn [cuts firstn skipn map until_halt Text.join fold_right
           speak_streaming_from].
    rewrite append_nil_r. unfold closing_utterance. rewrite join_cut.
    cbn [String.append].
    destruct (Text.truthy (Text.strip buffer)).
    + apply spoken_speak.
    + now rewrite app_nil_r.
  - cbn [cuts speak_streaming_from Text.join fold_right].
    fold (Text.join chunks).
    rewrite <- count_endings_app, <- append_assoc.
    destruct (split_first (String.append buffer chunk))
      as [[head tail]|] eqn:E.
    + destruct (split_first_some _ _ _ E) as [Eb Hone].
      assert (Hcount : count_endings (String.append buffer chunk)
                       = S (count_endings tail)).
      { rewrite Eb, count_endings_app, (one_sentence_count _ Hone).
        reflexivity. }
      rewrite Hcount.
      rewrite (cut_at_first_ending _ EmptyString head tail _ E).
      cbn [String.append firstn skipn map until_halt].
      rewrite (strip_truthy head (one_sentence_not_all_space head Hone)).
      pose proof (speak_flag w t (Text.strip head) lang Ht) as Hflag.
      destruct (halts w t (length (utterances t))) eqn:Eh; rewrite Hflag.
      * apply spoken_speak.
      * rewrite (IH _ tail Hflag), spoken_speak, <- app_assoc. cbn [app].
        destruct (speak_counts w t (Text.strip head) lang true) as [Hl Hp].
        rewrite Hl. f_equal. f_equal.
        apply until_halt_ext. intros k. unfold halts. now rewrite Hp.
    + pose proof (split_first_none _ E) as Hnone.
      apply no_ending_count in Hnone. rewrite Hnone.
      pose proof (IH t (String.append buffer chunk) Ht) as Hsp.
      rewrite Hnone in Hsp. exact Hsp.
Qed.

(** There are at least as many pieces as cuts. *)
Lemma cuts_within_pieces_from chunks : forall buffer,
  (cuts (count_endings buffer) chunks
   <= length (cut_at_endings EmptyString
                (String.append buffer (Text.join chunks))))%nat.
Proof.
  induction chunks as [|chunk chunks IH]; intros buffer.
  - cbn [cuts]. lia.
  - cbn [cuts Text.join fold_right]. fold (Text.join chunks).
    rewrite <- count_endings_app, <- append_assoc.
    destruct (split_first (String.append buffer chunk))
      as [[head tail]|] eqn:E.
    + destruct (split_first_some _ _ _ E) as [Eb Hone].
      assert (Hcount : count_endings (String.append buffer chunk)
                       = S (count_endings tail)).
      { rewrite Eb, count_endings_app, (one_sentence_count _ Hone).
        reflexivity. }
      rewrite Hcount.
      rewrite (cut_at_first_ending _ EmptyString head tail _ E).
      cbn [String.append length]. specialize (IH tail). lia.
    + pose proof (split_first_none _ E) as Hnone.
      apply no_ending_count in Hnone. rewrite Hnone.
      specialize (IH (String.append buffer chunk)).
      now rewrite Hnone in IH.
Qed.

Lemma cuts_within_pieces chunks :
  (cuts 0 chunks
   <= length (cut_at_endings EmptyString (Text.join chunks)))%nat.
Proof. exact (cuts_within_pieces_from chunks EmptyString). Qed.

End TtsFacts.

Module TtsClaims.
Import Tts TextFacts TtsMore TtsFacts.

Local Open Scope string_scope.
Local Open Scope list_scope.

(** C8, as the claim states it, fails on two counts.  At most one
    sentence is cut off per chunk, so a chunk with several endings leaves
    the later sentences in the buffer and they are spoken together as the
    remainder; and a [stop] during a sentence ends the stream, so the
    sentences that follow and the remainder are not spoken at all. *)
Lemma later_sentences_spoken_as_one :
  (spoken (speak_streaming Samples.quiet_world Samples.tts0 ["A.B.C"] "en")
   = ["A."; "B.C"]
   /\ stripped_nonempty (cut_at_endings "" (Text.join ["A.B.C"]))
      = ["A."; "B."; "C"]
   /\ spoken (speak_streaming Samples.quiet_world Samples.tts0 ["A.B.C"] "en")
      <> stripped_nonempty (cut_at_endings "" (Text.join ["A.B.C"])))
  /\ spoken (speak_streaming Samples.interrupting_world Samples.tts0
               ["A."; "B."; "C"] "en")
     = ["A."].
Proof. repeat split. discriminate. Qed.

(** C8 (amended).  The utterances of [speak_streaming] are consecutive
    pieces of the streamed text, in the order of the text.  Cut the whole
    text after every sentence ending ('.', '!', '?', ';'): the stream
    speaks the first pieces of that cut one by one, as many of them as
    there are chunks that arrive while an ending is waiting in the buffer
    (so at most one per chunk), and the pieces that are left are spoken
    together, last, in one utterance, when they are not blank.  Every
    piece is stripped before it is spoken.  A [stop] that arrives while a
    sentence plays ends the stream: that sentence is the last utterance,
    and neither the sentences after it nor the remainder are spoken.  With
    no [stop], all of them are. *)
Theorem streaming_speaks_in_order w t chunks lang :
  stop_event t = false ->
  spoken (speak_streaming w t chunks lang)
  = spoken t
    ++ until_halt (halts w t) (length (utterances t))
         (map Text.strip (streamed_sentences chunks))
         (closing_utterance (streamed_rest chunks))
  /\ (undisturbed w ->
      spoken (speak_streaming w t chunks lang)
      = spoken t ++ map Text.strip (streamed_sentences chunks)
        ++ closing_utterance (streamed_rest chunks))
  /\ Text.join (streamed_sentences chunks ++ streamed_rest chunks)
     = Text.join chunks
  /\ Forall (fun s => one_sentence s = true) (streamed_sentences chunks)
  /\ length (streamed_sentences chunks) = cuts 0 chunks
  /\ (cuts 0 chunks <= length chunks)%nat.
Proof.
  intros Ht.
  pose proof (streaming_general w lang chunks t EmptyString Ht) as Hsp.
  destruct (cuts_are_sentences chunks EmptyString) as [Hall Hlen].
  cbn [count_endings String.append] in Hsp, Hall, Hlen.
  fold (streamed_sentences chunks) in Hsp, Hall.
  fold (streamed_rest chunks) in Hsp.
  fold (speak_streaming w t chunks lang) in Hsp.
  split; [exact Hsp|].
  split.
  { intros Hw. rewrite Hsp. f_equal. apply until_halt_quiet.
    intros k. unfold halts. rewrite (Hw k). now rewrite andb_false_r. }
  split.
  { unfold streamed_sentences, streamed_rest. rewrite firstn_skipn.
    now rewrite join_cut. }
  split; [exact Hall|].
  split; [|exact Hlen].
  unfold streamed_sentences. apply firstn_length_le.
  apply cuts_within_pieces.
Qed.

Lemma streaming_speaks_in_order_witness :
  stop_event Samples.tts0 = false
  /\ spoken (speak_streaming Samples.quiet_world Samples.tts0
               ["Hi. "; "How are"; " you? Fine. Bye"] "en")
     = ["Hi."; "How are you?"; "Fine. Bye"]
  /\ spoken (speak_streaming Samples.interrupting_world Samples.tts0
               ["Hi. "; "How are"; " you? Fine. Bye"] "en")
     = ["Hi."].
Proof.
  split; [reflexivity|]. split.
  - exact (proj1 (streaming_speaks_in_order Samples.quiet_world Samples.tts0
                    ["Hi. "; "How are"; " you? Fine. Bye"] "en" eq_refl)).
  - exact (proj1 (streaming_speaks_in_order Samples.interrupting_world
                    Samples.tts0
                    ["Hi. "; "How are"; " you? Fine. Bye"] "en" eq_refl)).
Defined.

(** C9.  [stop] is idempotent: a second call changes nothing.  After
    one call the stop flag is set, nothing plays and [is_speaking] is
    false, whatever the state before, and the call touches nothing else. *)
Theorem stop_idempotent t :
  stop (stop t) = stop t
  /\ stop_event (stop t) = true
  /\ music_busy (stop t) = false
  /\ is_speaking (stop t) = false
  /\ utterances (stop t) = utterances t
  /\ voice_en (stop t) = voice_en t
  /\ voice_fr (stop t) = voice_fr t
  /\ has_pygame (stop t) = has_pygame t.
Proof. repeat split. Qed.

End TtsClaims.

(* ================================================================== *)
(** ** Properties of the conversation history *)
(* ================================================================== *)

Module ConversationClaims.
Import Conversation.

Lemma add_all_messages adds : forall c,
  messages (add_all c adds) = messages c ++ map message_of adds
  /\ max_history (add_all c adds) = max_history c.
Proof.
  induction adds as [|a adds IH]; intros c.
  - cbn. now rewrite app_nil_r.
  - change (add_all c (a :: adds)) with (add_all (add c a) adds).
    destruct (IH (add c a)) as [Hm Hh]. rewrite Hm, Hh.
    destruct a; cbn [add add_user_message add_assistant_message append
                       messages max_history message_of map];
      rewrite <- app_assoc; split; reflexivity.
Qed.

(** With [max_history >= 1] the window is as documented: the system
    prompt, then the latest [max_history] messages in their order. *)
Lemma history_window config_prompt prompt mh adds :
  Text.truthy prompt = true ->
  1 <= mh ->
  exists msgs,
    messages_for_llm (add_all (init config_prompt prompt mh) adds) = Some msgs
    /\ Z.of_nat (length msgs) <= mh + 1
    /\ hd_error msgs = Some (system_message prompt)
    /\ tl msgs
       = last_n (Nat.min (length adds) (Z.to_nat mh)) (map message_of adds).
Proof.
  intros Hp Hmh.
  destruct (add_all_messages adds (init config_prompt prompt mh)) as [Hm Hh].
  unfold messages_for_llm. rewrite Hm, Hh.
  unfold init. rewrite Hp. cbn [messages max_history]. rewrite Hp.
  cbn [app length]. rewrite length_map.
  destruct (Z.leb_spec (Z.of_nat (S (length adds))) (mh + 1)) as [Hle|Hgt].
  - eexists. split; [reflexivity|]. cbn [length hd_error tl].
    rewrite length_map. repeat split; [lia|].
    unfold last_n. rewrite length_map.
    replace (length adds - Nat.min (length adds) (Z.to_nat mh))%nat
      with 0%nat by lia.
    reflexivity.
  - eexists. split; [reflexivity|]. cbn [app hd_error tl].
    unfold slice_from. cbn [length]. rewrite length_map.
    replace (- mh <? 0) with true by (symmetry; apply Z.ltb_lt; lia).
    replace (Z.to_nat (Z.max 0 (Z.of_nat (S (length adds)) + - mh)))
      with (S (length adds - Z.to_nat mh)) by lia.
    cbn [skipn length]. rewrite length_skipn, length_map.
    repeat split; [lia|].
    unfold last_n. rewrite length_map. f_equal. lia.
Qed.

(** C10 fails in the code for [max_history = 0]: the slice
    [self._messages[-0:]] is the whole list, so the result repeats the
    system prompt and keeps every message. *)
Theorem zero_history_keeps_everything :
  max_history Samples.zero_history = 0
  /\ messages_for_llm Samples.zero_history
     = Some [system_message "You are Nova.";
             system_message "You are Nova.";
             message_of (User "2024-01-01T00:00:00" "hi")]
  /\ (forall msgs, messages_for_llm Samples.zero_history = Some msgs ->
        max_history Samples.zero_history + 1 < Z.of_nat (length msgs)).
Proof.
  split; [reflexivity|]. split; [reflexivity|].
  intros msgs H. vm_compute in H. inversion H; subst. cbn. lia.
Qed.

End ConversationClaims.

(* ================================================================== *)
(** ** Properties of the turn handler *)
(* ================================================================== *)

Module AssistantClaims.
Import Assistant.

Local Open Scope string_scope.
Local Open Scope list_scope.

(** C1.  While a recording is in progress a further activation changes
    nothing: [record] returns at once without opening a stream, and the
    recorder with its flag, its buffer and its stream count, the
    conversation, the playback sink and the main-loop flag are what they
    were.  The variables of the recording in progress belong to the first
    call and are out of reach of the second, so that recording goes on, on
    any further events, exactly as it would have. *)
Theorem second_activation_is_ignored e a :
  Recorder.is_recording (recorder a) = true ->
  Recorder.record (recorder a) max_duration_ms (mic e)
  = Recorder.Returned None (recorder a)
  /\ exists a',
       on_wake_word e a = Finished a'
       /\ recorder a' = recorder a
       /\ Recorder.is_recording (recorder a') = true
       /\ Recorder.audio_buffer (recorder a')
          = Recorder.audio_buffer (recorder a)
       /\ Recorder.streams_opened (recorder a')
          = Recorder.streams_opened (recorder a)
       /\ conversation a' = conversation a
       /\ tts a' = tts a
       /\ running a' = running a
       /\ wake_word a' = wake_word a
       /\ forall maxd l evs,
            Recorder.run_stream maxd (recorder a', l) evs
            = Recorder.run_stream maxd (recorder a, l) evs.
Proof.
  intros H.
  assert (Hr : Recorder.record (recorder a) max_duration_ms (mic e)
               = Recorder.Returned None (recorder a))
    by (unfold Recorder.record; now rewrite H).
  split; [exact Hr|].
  unfold on_wake_word, process_speech.
  cbn [recorder set_listening]. rewrite Hr.
  eexists. split; [reflexivity|].
  cbn [recorder set_listening set_recorder conversation tts running
         wake_word].
  repeat split; first [exact H | reflexivity].
Qed.

Lemma second_activation_is_ignored_witness :
  Recorder.record (recorder Samples.capturing_assistant) max_duration_ms
    (mic (Samples.turn_saying "hello"))
  = Recorder.Returned None (recorder Samples.capturing_assistant).
Proof.
  refine (proj1 (second_activation_is_ignored (Samples.turn_saying "hello")
                   Samples.capturing_assistant _)).
  reflexivity.
Defined.

(** The one field the ignored activation touches is the private flag
    [_listening], which [_process_speech] clears on its way out and which
    nothing reads. *)
Lemma second_activation_clears_listening e a :
  Recorder.is_recording (recorder a) = true ->
  on_wake_word e a = Finished (set_listening false a).
Proof.
  intros H. unfold on_wake_word, process_speech.
  cbn [recorder set_listening]. unfold Recorder.record. rewrite H.
  f_equal.
Qed.

(** An exit command ends the main loop whatever the state. *)
Lemma exit_command_stops_assistant e a wav r text lang :
  Recorder.record (recorder a) max_duration_ms (mic e)
  = Recorder.Returned (Some wav) r ->
  transcribe e wav = (text, lang) ->
  Text.truthy text = true ->
  (2 <= String.length (Text.strip text))%nat ->
  Text.mem (Text.strip (Text.lower text)) exit_commands = true ->
  exists a', process_speech e a = Finished a' /\ running a' = false.
Proof.
  intros Hr Ht Htr Hlen Hex. unfold process_speech.
  cbn [recorder set_listening]. rewrite Hr, Ht, Htr.
  cbn [negb orb].
  replace (String.length (Text.strip text) <? 2)%nat with false
    by (symmetry; apply Nat.ltb_ge; exact Hlen).
  rewrite Hex. eexists. split; [reflexivity|].
  unfold stop. cbn [tts set_running set_tts wake_word].
  destruct (wake_word _); reflexivity.
Qed.

(** C7 fails in the code for the utterance "stop": it is an exit command
    before it is a stop-speaking command, so the assistant says goodbye and
    clears [_running]; the loop ends and the next turn is not served. *)
Theorem stop_utterance_ends_the_loop :
  Text.mem "stop" stop_speaking_commands = true
  /\ exists a',
       process_speech (Samples.turn_saying "stop") Samples.assistant0
       = Finished a'
       /\ running a' = false
       /\ Tts.spoken (tts a') = ["Goodbye! Have a great day!"]
       /\ turns_served Samples.assistant0
            [Samples.turn_saying "stop"; Samples.turn_saying "hello there"]
          = 1%nat
       /\ push_to_talk Samples.assistant0
            [Samples.turn_saying "stop"; Samples.turn_saying "hello there"]
          = Finished (cleanup a').
Proof.
  split; [reflexivity|].
  eexists. split; [vm_compute; reflexivity|].
  repeat split; vm_compute; reflexivity.
Qed.

(** The stop-speaking commands that are not exit commands do what the
    claim says: playback is stopped and the loop goes on. *)
Lemma shut_up_only_stops_playback :
  exists a',
    process_speech (Samples.turn_saying "shut up") Samples.assistant0
    = Finished a'
    /\ running a' = true
    /\ tts a' = Tts.stop (tts Samples.assistant0)
    /\ conversation a' = conversation Samples.assistant0
    /\ turns_served Samples.assistant0
         [Samples.turn_saying "shut up"; Samples.turn_saying "hello there"]
       = 2%nat.
Proof.
  eexists. split; [vm_compute; reflexivity|].
  repeat split; vm_compute; reflexivity.
Qed.

End AssistantClaims.

(* ================================================================== *)
(** ** Further properties of the recorder *)
(* ================================================================== *)

Module RecorderExtras.
Import Recorder RecorderFacts RecorderBound RecorderRuns Endpointing.
Import RecorderMore.

(** Silence before any speech only moves the frame counter. *)
Lemma leading_silence maxd fs : forall r s c k,
  is_recording r = true ->
  Forall silence_frame fs ->
  c + Z.of_nat (length fs) < max_frames r maxd ->
  run_stream maxd
    (r, {| speech_started := false; silence_frames := s; frame_count := c;
           speech_start_calls := k |})
    (map Block fs)
  = (r, {| speech_started := false; silence_frames := s;
           frame_count := c + Z.of_nat (length fs);
           speech_start_calls := k |}).
Proof.
  induction fs as [|f fs IH]; intros r s c k Hrec Hall Hc.
  - cbn [map run_stream fold_left length]. f_equal. f_equal. cbn. lia.
  - inversion Hall as [|? ? Hf Hall']; subst. unfold silence_frame in Hf.
    change (map Block (f :: fs)) with (Block f :: map Block fs).
    rewrite run_stream_cons.
    cbn [on_event audio_callback]. rewrite Hrec, Hf.
    cbn [negb speech_started silence_frames frame_count speech_start_calls].
    rewrite (geb_false (c + 1)) by (cbn [length] in Hc; lia).
    rewrite IH; [|exact Hrec|exact Hall'|cbn [length] in Hc; lia].
    f_equal. f_equal. cbn [length]. lia.
Qed.

(** Silence, then speech, then a long enough silence: [record] returns
    the speech and the first [frames_for_silence] blocks of the silence
    that follows it; the silence before the speech is not in the segment.
    [frames_for_silence] is the source's count: [silence_duration_ms] is
    [int(self.silence_duration * 1000)], so a [silence_duration] of 2.01 s
    is 2009 and 66 blocks of 30 ms (see [DurationFacts]). *)
Theorem padded_utterance_is_trimmed r maxd lead sp si :
  is_recording r = false ->
  frame_duration_ms r <> 0 ->
  1 <= frames_for_silence r ->
  Forall silence_frame lead ->
  sp <> [] ->
  Forall speech_frame sp ->
  Forall silence_frame si ->
  frames_for_silence r <= Z.of_nat (length si) ->
  Z.of_nat (length lead) + Z.of_nat (length sp) + frames_for_silence r
  <= max_frames r maxd ->
  exists r',
    record r maxd (Opened (map Block (lead ++ sp ++ si)))
    = Returned
        (Some (create_wav r
                 (map audio_bytes
                    (sp ++ firstn (Z.to_nat (frames_for_silence r)) si))))
        r'
    /\ audio_buffer r'
       = map audio_bytes (sp ++ firstn (Z.to_nat (frames_for_silence r)) si)
    /\ is_recording r' = false.
Proof.
  intros Hidle Hfd HN Hlead Hsp Hspeech Hsil Hlen Hmax.
  set (N := frames_for_silence r) in *.
  set (r1 := started r).
  assert (Hcut : exists init x rest,
             si = init ++ x :: rest
             /\ Z.of_nat (length init) = N - 1
             /\ firstn (Z.to_nat N) si = init ++ [x]).
  { assert (Hne : firstn (Z.to_nat N) si <> []).
    { intros E. apply (f_equal (@length _)) in E.
      rewrite length_firstn in E. cbn in E. lia. }
    destruct (exists_last Hne) as (init & x & E).
    exists init, x, (skipn (Z.to_nat N) si). repeat split.
    - rewrite <- (firstn_skipn (Z.to_nat N) si) at 1. rewrite E.
      rewrite <- app_assoc. reflexivity.
    - apply (f_equal (@length _)) in E.
      rewrite length_firstn, length_app in E. cbn in E. lia.
    - exact E. }
  destruct Hcut as (init & x & rest & Esi & Hinit & Ekept).
  assert (Hsil' : Forall silence_frame init /\ silence_frame x).
  { rewrite Esi in Hsil. apply Forall_app in Hsil. destruct Hsil as [Hi Hx].
    inversion Hx; subst. split; assumption. }
  destruct Hsil' as [Hinit_sil Hx_sil].
  destruct sp as [|f fs]; [congruence|].
  assert (Hrun : exists l',
            run_stream maxd (r1, locals0)
              (map Block (lead ++ (f :: fs) ++ si))
            = (set_recording false
                 (set_buffer (map audio_bytes ((f :: fs) ++ init ++ [x])) r1),
               l')).
  { rewrite map_app, run_stream_app.
    unfold locals0.
    rewrite leading_silence; [|reflexivity|exact Hlead|].
    2:{ change (max_frames r1 maxd) with (max_frames r maxd).
        cbn [length] in Hmax. lia. }
    rewrite map_app, run_stream_app.
    rewrite speech_blocks; [|reflexivity|exact Hspeech|].
    2:{ change (max_frames r1 maxd) with (max_frames r maxd).
        cbn [frame_count]. lia. }
    rewrite Esi, map_app, run_stream_app.
    cbn [speech_started frame_count speech_start_calls].
    rewrite silence_blocks; [|reflexivity|exact Hinit_sil| |].
    2:{ change (frames_for_silence (set_buffer _ r1)) with N. lia. }
    2:{ change (max_frames (set_buffer _ r1) maxd) with (max_frames r maxd).
        lia. }
    change (map Block (x :: rest)) with (Block x :: map Block rest).
    rewrite run_stream_cons.
    edestruct closing_block as [l' El']; [| exact Hx_sil | | rewrite El'].
    - reflexivity.
    - change (frames_for_silence (set_buffer _ (set_buffer _ r1))) with N. lia.
    - rewrite run_stream_closed by reflexivity.
      exists l'. f_equal.
      unfold set_recording, set_buffer.
      cbn [audio_buffer sample_rate channels frame_duration_ms
             silence_duration_ms is_recording streams_opened map app r1
             started open_stream].
      rewrite !map_app. cbn [map app]. rewrite <- !app_assoc.
      reflexivity. }
  destruct Hrun as [l' Hrun].
  unfold record. rewrite Hidle.
  change (frame_duration_ms (set_buffer [] (set_recording true r)))
    with (frame_duration_ms r).
  destruct (Z.eqb_spec (frame_duration_ms r) 0) as [E|_]; [contradiction|].
  change (open_stream (set_buffer [] (set_recording true r))) with r1.
  rewrite Hrun.
  cbn [is_recording set_recording audio_buffer set_buffer map app].
  rewrite Ekept. cbn [map app].
  eexists. repeat split.
Qed.

(** Speech that never pauses is cut off when the frame counter reaches
    the maximum: [record] returns, and the segment is the first
    [max 1 max_frames] blocks.  [max_frames] is the source's count: [maxd]
    is [int(max_duration * 1000)], so a [max_duration] of 8.19 s is 8189
    and 272 blocks of 30 ms (see [DurationFacts]). *)
Theorem nonstop_speech_is_cut_off r maxd fs :
  is_recording r = false ->
  frame_duration_ms r <> 0 ->
  Forall speech_frame fs ->
  capacity r maxd <= Z.of_nat (length fs) ->
  exists r',
    record r maxd (Opened (map Block fs))
    = Returned
        (Some (create_wav r
                 (map audio_bytes (firstn (Z.to_nat (capacity r maxd)) fs))))
        r'
    /\ audio_buffer r'
       = map audio_bytes (firstn (Z.to_nat (capacity r maxd)) fs)
    /\ Z.of_nat (length (audio_buffer r')) = capacity r maxd.
Proof.
  intros H1 H2 H3 H4.
  exact (speech_only_is_cut_off r maxd fs H1 H2 H3 H4).
Qed.


Lemma on_event_buffer maxd st e :
  audio_buffer (fst (on_event maxd st e)) = audio_buffer (fst st)
  \/ exists f, e = Block f
       /\ audio_buffer (fst (on_event maxd st e))
          = audio_buffer (fst st) ++ [audio_bytes f].
Proof.
  destruct st as [r l]. destruct e as [f|]; [|left; reflexivity].
  cbn [on_event audio_callback fst].
  destruct (is_recording r); cbn [negb]; [|left; reflexivity].
  destruct (is_speech f); [|destruct (speech_started l)].
  - right. exists f. split; [reflexivity|].
    destruct (_ >=? _); reflexivity.
  - right. exists f. split; [reflexivity|].
    destruct (silence_frames l + 1 >=? _); destruct (_ >=? _); reflexivity.
  - left. destruct (_ >=? _); reflexivity.
Qed.

Lemma run_stream_buffer maxd evs : forall st,
  exists s,
    audio_buffer (fst (run_stream maxd st evs)) = audio_buffer (fst st) ++ s
    /\ subseq s (block_bytes evs).
Proof.
  induction evs as [|e evs IH]; intros st.
  - exists []. split; [now rewrite app_nil_r | constructor].
  - rewrite run_stream_cons.
    destruct (IH (on_event maxd st e)) as (s & Hs & Hsub).
    destruct (on_event_buffer maxd st e) as [E|(f & -> & E)].
    + exists s. rewrite Hs, E. split; [reflexivity|].
      destruct e; cbn [block_bytes]; [apply subseq_skip|]; exact Hsub.
    + exists (audio_bytes f :: s). rewrite Hs, E, <- app_assoc.
      split; [reflexivity|]. cbn [block_bytes]. apply subseq_keep, Hsub.
Qed.

(** The segment holds blocks of the stream in the order of the stream:
    blocks may be left out, none is moved, repeated or made up. *)
Theorem segment_keeps_stream_order r maxd evs res r' :
  is_recording r = false ->
  record r maxd (Opened evs) = Returned res r' ->
  subseq (audio_buffer r') (block_bytes evs).
Proof.
  intros Hidle. unfold record. rewrite Hidle.
  destruct (frame_duration_ms _ =? 0); [discriminate|].
  destruct (run_stream_buffer maxd evs
              (open_stream (set_buffer [] (set_recording true r)), locals0))
    as (s & Hs & Hsub).
  destruct (run_stream maxd _ evs) as [r1 l1].
  cbn [fst audio_buffer open_stream set_buffer app] in Hs.
  destruct (is_recording r1); [discriminate|].
  destruct (audio_buffer r1) eqn:Eb; intros H; inversion H; subst;
    cbn [audio_buffer set_recording]; rewrite Eb; exact Hsub.
Qed.

Lemma notified_step maxd st e : notified st -> notified (on_event maxd st e).
Proof.
  destruct st as [r l]. unfold notified.
  destruct e as [f|]; cbn [on_event fst snd stop audio_buffer set_recording];
    [|tauto].
  unfold audio_callback.
  destruct (is_recording r); cbn [negb]; [|tauto].
  intros H.
  destruct (is_speech f); [|destruct (speech_started l) eqn:Es].
  - right.
    destruct (_ >=? _);
      cbn [speech_started speech_start_calls audio_buffer set_buffer
             set_recording];
      (split; [reflexivity|]);
      (split; [destruct H as [(Hs & Hc & _)|(Hs & Hc & _)]; rewrite Hs, Hc;
               reflexivity|]);
      intros E; apply app_eq_nil in E; destruct E; discriminate.
  - right. destruct H as [(Hs & _)|(_ & Hc & _)]; [discriminate|].
    destruct (silence_frames l + 1 >=? _); destruct (_ >=? _);
      cbn [speech_started speech_start_calls audio_buffer set_buffer
             set_recording];
      (split; [reflexivity|]); (split; [exact Hc|]);
      intros E; apply app_eq_nil in E; destruct E; discriminate.
  - left. destruct H as [(_ & Hc & Hb)|(Hs & _)]; [|discriminate].
    destruct (_ >=? _);
      cbn [speech_started speech_start_calls audio_buffer set_recording];
      repeat split; assumption.
Qed.

Lemma notified_run maxd evs : forall st,
  notified st -> notified (run_stream maxd st evs).
Proof.
  induction evs as [|e evs IH]; intros st H; [exact H|].
  rewrite run_stream_cons. apply IH, notified_step, H.
Qed.

(** [on_speech_start] is called once in a recording that captures
    something, on its first speech block, and never in a recording that
    captures nothing. *)
Theorem speech_start_is_notified_once r maxd evs :
  speech_start_calls (snd (run_stream maxd (started r, locals0) evs))
  = match audio_buffer (fst (run_stream maxd (started r, locals0) evs)) with
    | [] => 0%nat
    | _ :: _ => 1%nat
    end.
Proof.
  assert (H : notified (run_stream maxd (started r, locals0) evs)).
  { apply notified_run. left. repeat split. }
  destruct (run_stream maxd (started r, locals0) evs) as [r1 l1].
  cbn [fst snd]. destruct H as [(_ & Hc & Hb)|(_ & Hc & Hb)].
  - now rewrite Hb, Hc.
  - rewrite Hc. destruct (audio_buffer r1); [congruence|reflexivity].
Qed.

(** When [record] returns, the recorder is free again: the flag is
    cleared, the settings are what they were and at most one stream has
    been opened. *)
Theorem record_releases_recorder r maxd mic res r' :
  is_recording r = false ->
  record r maxd mic = Returned res r' ->
  is_recording r' = false
  /\ sample_rate r' = sample_rate r
  /\ channels r' = channels r
  /\ frame_duration_ms r' = frame_duration_ms r
  /\ silence_duration_ms r' = silence_duration_ms r
  /\ (streams_opened r' <= S (streams_opened r))%nat
  /\ (mic = DeviceError -> streams_opened r' = streams_opened r).
Proof.
  intros Hidle. unfold record. rewrite Hidle.
  destruct (frame_duration_ms _ =? 0); [discriminate|].
  destruct mic as [|evs].
  - intros H. inversion H; subst. cbn. repeat split; lia.
  - pose proof (bounded_run _ maxd evs _ (fresh_state_bounded r maxd)) as Hb.
    destruct (run_stream maxd _ evs) as [r1 l1].
    destruct Hb as ((H1 & H2 & H3 & H4 & H5) & _).
    cbn [sample_rate channels frame_duration_ms silence_duration_ms
           streams_opened open_stream set_buffer set_recording] in *.
    destruct (is_recording r1); [discriminate|].
    destruct (audio_buffer r1); intros H; inversion H; subst;
      cbn [is_recording sample_rate channels frame_duration_ms
             silence_duration_ms streams_opened set_recording];
      repeat split; try assumption; try lia; discriminate.
Qed.

(** With [frame_duration_ms = 0] the division raises before the [try]
    block is entered: the flag stays set, and every later [record] on the
    object is refused until [stop] is called. *)
Theorem zero_frame_duration_blocks_recorder r maxd mic :
  is_recording r = false ->
  frame_duration_ms r = 0 ->
  exists r',
    record r maxd mic = Raised r'
    /\ is_recording r' = true
    /\ (forall maxd' mic', record r' maxd' mic' = Returned None r')
    /\ is_recording (stop r') = false.
Proof.
  intros Hidle Hfd. unfold record at 1. rewrite Hidle.
  change (frame_duration_ms (set_buffer [] (set_recording true r)))
    with (frame_duration_ms r).
  rewrite Hfd. cbn [Z.eqb].
  eexists. split; [reflexivity|]. repeat split.
Qed.

Lemma padded_utterance_is_trimmed_witness :
  exists r',
    record Samples.recorder900 15000
      (Opened (map Block (MoreSamples.silence3 ++ Samples.speech20
                          ++ Samples.silence35)))
    = Returned
        (Some (create_wav Samples.recorder900
                 (map audio_bytes
                    (Samples.speech20
                     ++ firstn (Z.to_nat (frames_for_silence Samples.recorder900))
                          Samples.silence35))))
        r'
    /\ audio_buffer r'
       = map audio_bytes
           (Samples.speech20
            ++ firstn (Z.to_nat (frames_for_silence Samples.recorder900))
                 Samples.silence35)
    /\ is_recording r' = false.
Proof.
  apply (padded_utterance_is_trimmed Samples.recorder900 15000
           MoreSamples.silence3 Samples.speech20 Samples.silence35);
    try reflexivity; try discriminate; try (vm_compute; discriminate);
    apply Forall_forall; intros f Hf; apply repeat_spec in Hf; subst;
    reflexivity.
Defined.

Lemma nonstop_speech_is_cut_off_witness :
  exists r',
    record Samples.recorder900 300 (Opened (map Block Samples.speech20))
    = Returned
        (Some (create_wav Samples.recorder900
                 (map audio_bytes
                    (firstn (Z.to_nat (capacity Samples.recorder900 300))
                       Samples.speech20))))
        r'
    /\ audio_buffer r'
       = map audio_bytes
           (firstn (Z.to_nat (capacity Samples.recorder900 300))
              Samples.speech20)
    /\ Z.of_nat (length (audio_buffer r')) = capacity Samples.recorder900 300.
Proof.
  apply (nonstop_speech_is_cut_off Samples.recorder900 300 Samples.speech20);
    try reflexivity; try discriminate; try (vm_compute; discriminate).
  apply Forall_forall; intros f Hf; apply repeat_spec in Hf; subst;
    reflexivity.
Defined.


Lemma segment_keeps_stream_order_witness :
  subseq
    [audio_bytes Samples.speech_block; audio_bytes Samples.speech_block]
    (block_bytes MoreSamples.stopped_stream).
Proof.
  refine (segment_keeps_stream_order Samples.recorder900 15000
            MoreSamples.stopped_stream _
            (set_buffer [audio_bytes Samples.speech_block;
                         audio_bytes Samples.speech_block]
               (open_stream Samples.recorder900)) _ _);
    reflexivity.
Defined.

Lemma record_releases_recorder_witness :
  is_recording
    (set_buffer [audio_bytes Samples.speech_block;
                 audio_bytes Samples.speech_block]
       (open_stream Samples.recorder900)) = false.
Proof.
  refine (proj1 (record_releases_recorder Samples.recorder900 15000
                   (Opened MoreSamples.stopped_stream) _ _ _ _));
    reflexivity.
Defined.

Lemma zero_frame_duration_blocks_recorder_witness :
  exists r',
    record MoreSamples.zero_frame_recorder 15000
      (Opened [Block Samples.speech_block]) = Raised r'
    /\ is_recording r' = true
    /\ (forall maxd' mic', record r' maxd' mic' = Returned None r')
    /\ is_recording (stop r') = false.
Proof.
  apply (zero_frame_duration_blocks_recorder MoreSamples.zero_frame_recorder
           15000 (Opened [Block Samples.speech_block]));
    reflexivity.
Defined.

Lemma still_recording_counts maxd evs : forall r l,
  is_recording (fst (run_stream maxd (r, l) evs)) = true ->
  frame_count (snd (run_stream maxd (r, l) evs))
  = frame_count l + blocks evs.
Proof.
  induction evs as [|e evs IH]; intros r l H.
  - cbn. lia.
  - rewrite run_stream_cons in *.
    destruct (is_recording r) eqn:Er.
    + destruct e as [f|].
      * destruct (audio_callback_runs maxd r l f Er) as [[r1 l1] E].
        cbn [on_event] in *. rewrite E in *.
        rewrite (IH r1 l1 H).
        rewrite (frame_count_incremented _ _ _ _ _ _ E).
        cbn [blocks]. lia.
      * cbn [on_event fst snd] in H.
        rewrite run_stream_closed in H by reflexivity.
        cbn in H. discriminate.
    + rewrite on_event_closed in H by exact Er.
      rewrite run_stream_closed in H by exact Er.
      cbn [fst] in H. congruence.
Qed.

(** The maximum duration is a hard limit for any input: once the stream
    has delivered [max 1 (max_duration_ms / frame_duration_ms)] blocks,
    whatever they hold, [record] has returned. *)
Theorem recording_ends_by_max_duration r maxd evs :
  is_recording r = false ->
  frame_duration_ms r <> 0 ->
  capacity r maxd <= blocks evs ->
  exists res r',
    record r maxd (Opened evs) = Returned res r'
    /\ is_recording r' = false.
Proof.
  intros Hidle Hfd Hcap. unfold record. rewrite Hidle.
  change (frame_duration_ms (set_buffer [] (set_recording true r)))
    with (frame_duration_ms r).
  destruct (Z.eqb_spec (frame_duration_ms r) 0) as [E|_]; [contradiction|].
  pose proof (bounded_run _ maxd evs _ (fresh_state_bounded r maxd)) as Hb.
  pose proof (still_recording_counts maxd evs
                (open_stream (set_buffer [] (set_recording true r)))
                locals0) as Hc.
  destruct (run_stream maxd _ evs) as [r1 l1].
  cbn [fst snd frame_count locals0] in Hc.
  destruct Hb as (_ & _ & _ & Hrec).
  destruct (is_recording r1) eqn:Er.
  - specialize (Hrec eq_refl). specialize (Hc eq_refl).
    unfold capacity in *.
    change (max_frames (open_stream _) maxd) with (max_frames r maxd) in Hrec.
    set (mf := max_frames r maxd) in *. clearbody mf. lia.
  - destruct (audio_buffer r1); eexists; eexists; split; reflexivity.
Qed.

Lemma recording_ends_by_max_duration_witness :
  exists res r',
    record Samples.recorder900 90
      (Opened [Block Samples.silence_block; Block Samples.speech_block;
               Block Samples.silence_block; Block Samples.speech_block])
    = Returned res r'
    /\ is_recording r' = false.
Proof.
  apply (recording_ends_by_max_duration Samples.recorder900 90
           [Block Samples.silence_block; Block Samples.speech_block;
            Block Samples.silence_block; Block Samples.speech_block]).
  - reflexivity.
  - discriminate.
  - vm_compute. discriminate.
Defined.

End RecorderExtras.

(* ================================================================== *)
(** ** Further properties of the activation triggers *)
(* ================================================================== *)

Module WakeWordExtras.
Import WakeWord WakeWordMore.

Local Open Scope string_scope.
Local Open Scope list_scope.

Lemma listen_step d e evs : listen d (e :: evs) = listen (on_event d e) evs.
Proof. reflexivity. Qed.

Lemma no_callback_no_activation evs : forall d,
  callback d = false -> activations (listen d evs) = activations d.
Proof.
  induction evs as [|e evs IH]; intros d H; [reflexivity|].
  rewrite listen_step. destruct e as [k|].
  - cbn [on_event]. unfold audio_callback. rewrite H.
    destruct (stop_event d); [apply IH, H|].
    destruct (k >=? 0); apply IH, H.
  - rewrite IH by exact H. reflexivity.
Qed.

Lemma stop_event_no_activation evs : forall d,
  stop_event d = true -> activations (listen d evs) = activations d.
Proof.
  induction evs as [|e evs IH]; intros d H; [reflexivity|].
  rewrite listen_step. destruct e as [k|].
  - cbn [on_event]. unfold audio_callback. rewrite H. apply IH, H.
  - rewrite IH by reflexivity. reflexivity.
Qed.

Lemma listen_counts evs : forall d,
  callback d = true -> stop_event d = false ->
  activations (listen d evs) = (activations d + matches_before_stop evs)%nat.
Proof.
  induction evs as [|e evs IH]; intros d Hcb Hstop.
  - cbn. lia.
  - rewrite listen_step. destruct e as [k|].
    + cbn [on_event matches_before_stop]. unfold audio_callback.
      rewrite Hstop, Hcb. destruct (k >=? 0).
      * rewrite IH by (cbn; first [assumption | reflexivity]).
        cbn [activations]. lia.
      * rewrite IH by assumption. lia.
    + cbn [on_event matches_before_stop].
      rewrite stop_event_no_activation by reflexivity.
      cbn [activations stop]. lia.
Qed.

(** Without the Porcupine package, without an access key or when the
    engine cannot be created, the detector is unavailable: [start] does
    nothing and no block ever calls a callback. *)
Theorem unavailable_detector_never_activates has_porcupine access_key
    create_ok evs :
  has_porcupine && Text.truthy access_key && create_ok = false ->
  is_available (init has_porcupine access_key create_ok) = false
  /\ start (init has_porcupine access_key create_ok)
     = init has_porcupine access_key create_ok
  /\ activations
       (listen (start (init has_porcupine access_key create_ok)) evs)
     = 0%nat.
Proof.
  intros H.
  assert (Hs : start (init has_porcupine access_key create_ok)
               = init has_porcupine access_key create_ok).
  { unfold start, is_available, init. cbn [porcupine]. now rewrite H. }
  repeat split.
  - unfold is_available, init. cbn [porcupine]. exact H.
  - exact Hs.
  - rewrite Hs. rewrite no_callback_no_activation; reflexivity.
Qed.

Lemma unavailable_detector_never_activates_witness :
  is_available (init true "" true) = false
  /\ start (init true "" true) = init true "" true
  /\ activations (listen (start (init true "" true)) [Heard 0; Heard 3])
     = 0%nat.
Proof.
  apply (unavailable_detector_never_activates true "" true
           [Heard 0; Heard 3]).
  reflexivity.
Defined.

(** After [stop] nothing the stream delivers calls the callback; a new
    [start] brings the detector back, and from then on every positive
    block before the next [stop] calls it once. *)
Theorem stop_silences_until_restart d evs1 evs2 :
  is_available d = true ->
  activations (listen (stop d) evs1) = activations d
  /\ activations (listen (start (stop d)) evs2)
     = (activations d + matches_before_stop evs2)%nat.
Proof.
  intros Ha. split.
  - rewrite stop_event_no_activation; reflexivity.
  - assert (E : start (stop d)
                 = {| porcupine := porcupine d; is_listening := true;
                      stop_event := false; callback := true;
                      activations := activations d |}).
    { unfold start, is_available in *. cbn [porcupine stop is_listening].
      rewrite Ha. reflexivity. }
    rewrite E, listen_counts; reflexivity.
Qed.

Lemma stop_silences_until_restart_witness :
  activations (listen (stop Samples.listening_detector) [Heard 0; Heard 1])
  = activations Samples.listening_detector
  /\ activations
       (listen (start (stop Samples.listening_detector))
          [Heard 0; Heard (-1); Heard 2; StopRequest; Heard 5])
     = (activations Samples.listening_detector
        + matches_before_stop
            [Heard 0; Heard (-1); Heard 2; StopRequest; Heard 5])%nat.
Proof.
  apply (stop_silences_until_restart Samples.listening_detector
           [Heard 0; Heard 1]
           [Heard 0; Heard (-1); Heard 2; StopRequest; Heard 5]).
  reflexivity.
Defined.

(** A second [start] is refused: the detector is left as the first call
    made it. *)
Lemma start_is_idempotent d : start (start d) = start d.
Proof.
  unfold start. destruct (is_available d) eqn:Ea; cbn [negb].
  - destruct (is_listening d) eqn:El.
    + now rewrite Ea, El.
    + unfold is_available in *. cbn [porcupine is_listening].
      now rewrite Ea.
  - now rewrite Ea.
Qed.

Lemma built_in_keeps_itself :
  forallb (fun k => Text.mem (keyword_to_use k) built_in_names)
    BUILT_IN_KEYWORDS = true.
Proof. vm_compute. reflexivity. Qed.

Lemma mem_true x xs :
  Text.mem x xs = true -> In x xs.
Proof.
  unfold Text.mem. rewrite existsb_exists.
  intros (y & Hy & E). apply String.eqb_eq in E. now subst.
Qed.

(** Whatever keyword is configured, the one passed to the engine is a
    built-in keyword up to case and to spaces written as underscores: a
    keyword of that kind is passed as it was given, any other is replaced
    by "computer". *)
Theorem requested_keyword_is_built_in keyword :
  Text.mem (keyword_to_use (requested_keyword keyword)) built_in_names = true
  /\ (In keyword BUILT_IN_KEYWORDS -> requested_keyword keyword = keyword)
  /\ (Text.mem (keyword_to_use keyword) built_in_names = false ->
      requested_keyword keyword = "computer").
Proof.
  unfold requested_keyword. repeat split.
  - destruct (Text.mem (keyword_to_use keyword) built_in_names) eqn:E.
    + exact E.
    + vm_compute. reflexivity.
  - intros Hin.
    pose proof built_in_keeps_itself as H.
    rewrite forallb_forall in H. now rewrite (H keyword Hin).
  - intros ->. reflexivity.
Qed.

Lemma requested_keyword_is_built_in_witness :
  requested_keyword "hey google" = "hey google".
Proof.
  refine (proj1 (proj2 (requested_keyword_is_built_in "hey google")) _).
  vm_compute. tauto.
Defined.

End WakeWordExtras.

Module PushToTalkExtras.
Import PushToTalk.

Lemma wait_loop_step p e evs :
  wait_loop p (e :: evs) = wait_loop (on_event p e) evs.
Proof. reflexivity. Qed.

(** Once the object has been stopped or the loop has been left, no line
    calls the callback. *)
Lemma idle_loop_is_silent evs : forall p,
  waiting p = false \/ looping p = false ->
  activations (wait_loop p evs) = activations p.
Proof.
  induction evs as [|e evs IH]; intros p H; [reflexivity|].
  rewrite wait_loop_step. destruct e; cbn [on_event].
  - destruct (looping p) eqn:El.
    + destruct H as [Hw|Hl]; [|discriminate].
      rewrite Hw, andb_false_r.
      destruct (stop_event p); rewrite IH by (cbn; auto); reflexivity.
    + apply IH. auto.
  - destruct (looping p) eqn:El;
      [rewrite IH by (cbn; auto); reflexivity|].
    apply IH. auto.
  - rewrite IH by (cbn; auto). reflexivity.
Qed.

(** Push-to-talk calls the callback once for every line entered, up to
    the end of the input or the call of [stop]; the line that wakes the
    thread after [stop] is swallowed without a call. *)
Theorem one_activation_per_line p evs :
  activations (wait_loop (start p) evs)
  = (activations p + lines_before_end evs)%nat.
Proof.
  change (activations p) with (activations (start p)).
  assert (H : forall q, waiting q = true -> callback q = true ->
                        stop_event q = false -> looping q = true ->
                        activations (wait_loop q evs)
                        = (activations q + lines_before_end evs)%nat).
  { induction evs as [|e evs IH]; intros q Hw Hc Hs Hl.
    - cbn. lia.
    - rewrite wait_loop_step. destruct e; cbn [on_event lines_before_end].
      + rewrite Hl, Hc, Hw. cbn [andb activate stop_event]. rewrite Hs.
        rewrite IH by assumption. unfold activate. cbn [activations]. lia.
      + rewrite Hl. rewrite idle_loop_is_silent by (cbn; auto).
        cbn [activations leave]. lia.
      + rewrite idle_loop_is_silent by (cbn; auto).
        cbn [activations stop]. lia. }
  apply H; reflexivity.
Qed.

End PushToTalkExtras.

(* ================================================================== *)
(** ** Further properties of the playback sink *)
(* ================================================================== *)

Module TtsExtras.
Import Tts TextFacts TtsFacts TtsMore.

Local Open Scope string_scope.
Local Open Scope list_scope.

Lemma streaming_exact w lang chunks : forall t buffer,
  undisturbed w -> stop_event t = false ->
  has_ending buffer = false ->
  Forall (fun c => (count_endings c <= 1)%nat) chunks ->
  spoken (speak_streaming_from w t buffer chunks lang)
  = spoken t ++ stripped_nonempty (cut_at_endings buffer (Text.join chunks)).
Proof.
  induction chunks as [|chunk chunks IH]; intros t buffer Hw Ht Hb Hall.
  - cbn [speak_streaming_from Text.join fold_right cut_at_endings].
    destruct buffer as [|c b].
    + cbn. now rewrite app_nil_r.
    + unfold stripped_nonempty. cbn [map filter].
      destruct (Text.truthy (Text.strip (String c b))).
      * apply spoken_speak.
      * now rewrite app_nil_r.
  - inversion Hall as [|? ? Hc Hall']; subst.
    cbn [speak_streaming_from Text.join fold_right].
    fold (Text.join chunks).
    destruct (split_first (String.append buffer chunk))
      as [[head tail]|] eqn:E.
    + destruct (split_first_some _ _ _ E) as [Eb Hone].
      assert (Htail : has_ending tail = false).
      { apply no_ending_count.
        assert (Hcount : count_endings (String.append buffer chunk)
                         = (1 + count_endings tail)%nat).
        { rewrite Eb, count_endings_app, (one_sentence_count _ Hone).
          reflexivity. }
        rewrite count_endings_app in Hcount.
        apply no_ending_count in Hb. lia. }
      rewrite (strip_truthy head (one_sentence_not_all_space head Hone)).
      rewrite speak_keeps_flag_clear by assumption.
      rewrite IH; [|exact Hw|now apply speak_keeps_flag_clear
                   |exact Htail|exact Hall'].
      rewrite spoken_speak, <- app_assoc. f_equal.
      rewrite <- (cut_without_ending buffer "" _ Hb).
      cbn [String.append]. rewrite <- append_assoc.
      rewrite (cut_at_first_ending _ "" head tail _ E).
      cbn [String.append]. rewrite (stripped_sentence _ _ Hone).
      cbn [app]. f_equal.
      now rewrite <- (cut_without_ending tail "" _ Htail).
    + pose proof (split_first_none _ E) as Hnone.
      assert (Hchunk : has_ending chunk = false).
      { apply no_ending_count. apply no_ending_count in Hnone.
        rewrite count_endings_app in Hnone. lia. }
      rewrite IH; [|exact Hw|exact Ht|exact Hnone|exact Hall'].
      now rewrite (cut_without_ending chunk buffer _ Hchunk).
Qed.

(** When no chunk holds more than one sentence ending and nobody stops
    the playback, the streamed text is spoken sentence by sentence: the
    utterances are the text cut at every '.', '!', '?' and ';', each
    stripped, followed by the unterminated rest when it is not blank. *)
Theorem one_ending_per_chunk_cuts_every_sentence w t chunks lang :
  undisturbed w ->
  stop_event t = false ->
  Forall (fun c => (count_endings c <= 1)%nat) chunks ->
  spoken (speak_streaming w t chunks lang)
  = spoken t ++ stripped_nonempty (cut_at_endings "" (Text.join chunks)).
Proof.
  intros Hw Ht Hall. unfold speak_streaming.
  apply streaming_exact; try assumption. reflexivity.
Qed.

Lemma one_ending_per_chunk_cuts_every_sentence_witness :
  spoken (speak_streaming Samples.quiet_world Samples.tts0
            ["Hi. How"; " are you? I"; " am fine"; "; thanks"] "en")
  = spoken Samples.tts0
    ++ stripped_nonempty
         (cut_at_endings ""
            (Text.join ["Hi. How"; " are you? I"; " am fine"; "; thanks"])).
Proof.
  apply (one_ending_per_chunk_cuts_every_sentence Samples.quiet_world
           Samples.tts0 ["Hi. How"; " are you? I"; " am fine"; "; thanks"]
           "en").
  - intros n. reflexivity.
  - reflexivity.
  - repeat constructor.
Defined.

(** A [stop] that arrives while a sentence of the stream is playing ends
    [speak_streaming] there: the chunks that follow are not looked at and
    the rest of the buffer is not spoken. *)
Theorem stop_discards_rest_of_stream w t buffer chunk chunks lang head tail :
  has_pygame t = true ->
  synth_ok (w (length (utterances t))) = true ->
  play_raises (w (length (utterances t))) = false ->
  interrupted (w (length (utterances t))) = true ->
  split_first (String.append buffer chunk) = Some (head, tail) ->
  speak_streaming_from w t buffer (chunk :: chunks) lang
  = speak w t (Text.strip head) lang true
  /\ spoken (speak_streaming_from w t buffer (chunk :: chunks) lang)
     = spoken t ++ [Text.strip head]
  /\ music_busy (speak_streaming_from w t buffer (chunk :: chunks) lang)
     = false.
Proof.
  intros Hp Hs Hr Hi E.
  destruct (split_first_some _ _ _ E) as [_ Hone].
  assert (Hflag : stop_event (speak w t (Text.strip head) lang true) = true).
  { unfold speak. cbn [has_pygame log_utterance].
    rewrite Hp, Hs, Hr, Hi. reflexivity. }
  assert (Hrun : speak_streaming_from w t buffer (chunk :: chunks) lang
                 = speak w t (Text.strip head) lang true).
  { cbn [speak_streaming_from]. rewrite E.
    rewrite (strip_truthy head (one_sentence_not_all_space head Hone)).
    now rewrite Hflag. }
  rewrite Hrun. repeat split.
  - apply spoken_speak.
  - unfold speak. cbn [has_pygame log_utterance].
    rewrite Hp, Hs, Hr, Hi. reflexivity.
Qed.

Lemma stop_discards_rest_of_stream_witness :
  speak_streaming_from Samples.interrupting_world Samples.tts0 ""
    ("One. Two" :: [". Three."; " Four"]) "en"
  = speak Samples.interrupting_world Samples.tts0 (Text.strip "One.") "en"
      true
  /\ spoken
       (speak_streaming_from Samples.interrupting_world Samples.tts0 ""
          ("One. Two" :: [". Three."; " Four"]) "en")
     = spoken Samples.tts0 ++ [Text.strip "One."]
  /\ music_busy
       (speak_streaming_from Samples.interrupting_world Samples.tts0 ""
          ("One. Two" :: [". Three."; " Four"]) "en")
     = false.
Proof.
  apply (stop_discards_rest_of_stream Samples.interrupting_world Samples.tts0
           "" "One. Two" [". Three."; " Four"] "en" "One." " Two");
    reflexivity.
Defined.

(** [speak] never leaves [is_speaking] set, whichever way it ends; with
    [wait=False] it returns while the audio is still playing, so
    [is_speaking] is false during that playback. *)
Theorem speak_clears_is_speaking w t text lang wait :
  is_speaking t = false ->
  is_speaking (speak w t text lang wait) = false
  /\ (has_pygame t = true ->
      synth_ok (w (length (utterances t))) = true ->
      play_raises (w (length (utterances t))) = false ->
      wait = false ->
      music_busy (speak w t text lang wait) = true).
Proof.
  intros H. unfold speak. cbn [has_pygame log_utterance]. split.
  - destruct (has_pygame t); cbn [negb]; [|exact H].
    destruct (synth_ok _); cbn [negb]; [|exact H].
    destruct (play_raises _); [reflexivity|].
    destruct wait; [destruct (interrupted _)|]; reflexivity.
  - intros Hp Hs Hr ->. rewrite Hp, Hs, Hr. reflexivity.
Qed.

Lemma speak_clears_is_speaking_witness :
  is_speaking (speak Samples.quiet_world Samples.tts0 "Hello" "en" false)
  = false
  /\ music_busy (speak Samples.quiet_world Samples.tts0 "Hello" "en" false)
     = true.
Proof.
  destruct (speak_clears_is_speaking Samples.quiet_world Samples.tts0
              "Hello" "en" false eq_refl) as [H1 H2].
  split; [exact H1|]. apply H2; reflexivity.
Defined.

(** A [stop] does not linger: when synthesis and the mixer work, the
    next [speak] plays exactly as if [stop] had not been called. *)
Theorem speak_after_stop_is_speak w t text lang wait :
  has_pygame t = true ->
  synth_ok (w (length (utterances t))) = true ->
  play_raises (w (length (utterances t))) = false ->
  speak w (stop t) text lang wait = speak w t text lang wait.
Proof.
  intros Hp Hs Hr. unfold speak, stop.
  cbn [has_pygame log_utterance set_flags utterances].
  rewrite Hp, Hs, Hr. cbn [negb].
  destruct wait; [destruct (interrupted _)|]; reflexivity.
Qed.

Lemma speak_after_stop_is_speak_witness :
  speak Samples.quiet_world (stop Samples.tts0) "Hello" "en" true
  = speak Samples.quiet_world Samples.tts0 "Hello" "en" true.
Proof.
  apply (speak_after_stop_is_speak Samples.quiet_world Samples.tts0
           "Hello" "en" true); reflexivity.
Defined.

End TtsExtras.

(* ================================================================== *)
(** ** Further properties of the conversation history *)
(* ================================================================== *)

Module ConversationExtras.
Import Conversation ConversationMore.

Local Open Scope string_scope.
Local Open Scope list_scope.
Local Open Scope Z_scope.

Lemma messages_after_additions adds : forall c,
  messages (add_all c adds) = messages c ++ map message_of adds
  /\ max_history (add_all c adds) = max_history c
  /\ system_prompt (add_all c adds) = system_prompt c.
Proof.
  induction adds as [|a adds IH]; intros c.
  - cbn. now rewrite app_nil_r.
  - change (add_all c (a :: adds)) with (add_all (add c a) adds).
    destruct (IH (add c a)) as (Hm & Hh & Hp). rewrite Hm, Hh, Hp.
    destruct a; cbn [add add_user_message add_assistant_message append
                       messages max_history system_prompt message_of map];
      rewrite <- app_assoc; repeat split.
Qed.

Lemma added_message_is_last c a :
  0 <= max_history c ->
  exists msgs,
    messages_for_llm (add c a) = Some msgs
    /\ last msgs (message_of a) = message_of a
    /\ msgs <> [].
Proof.
  intros Hmh.
  assert (Hm : messages (add c a) = messages c ++ [message_of a])
    by (destruct a; reflexivity).
  assert (Hh : max_history (add c a) = max_history c)
    by (destruct a; reflexivity).
  unfold messages_for_llm. rewrite Hm, Hh.
  destruct (_ <=? _).
  - eexists. split; [reflexivity|]. split.
    + apply last_last.
    + intros E. apply app_eq_nil in E. destruct E; discriminate.
  - destruct (messages c ++ [message_of a]) as [|first rest] eqn:E.
    + apply app_eq_nil in E. destruct E; discriminate.
    + eexists. split; [reflexivity|]. split; [|discriminate].
      rewrite <- E. unfold slice_from.
      set (n := Z.of_nat (length (messages c ++ [message_of a]))).
      assert (Hn : n = Z.of_nat (length (messages c)) + 1)
        by (unfold n; rewrite length_app; cbn [length]; lia).
      set (k := Z.to_nat (if - max_history c <? 0
                          then Z.max 0 (n + - max_history c)
                          else Z.min (- max_history c) n)).
      assert (Hk : (k <= length (messages c))%nat).
      { unfold k. destruct (Z.ltb_spec (- max_history c) 0); lia. }
      rewrite skipn_app.
      replace (k - length (messages c))%nat with 0%nat by lia.
      cbn [skipn].
      exact (last_last (first :: skipn k (messages c)) (message_of a) _).
Qed.

(** For [max_history >= 0] the message added last is always the last
    one of [messages_for_llm], however long the history is. *)
Theorem latest_message_reaches_llm c a :
  0 <= max_history c ->
  exists msgs,
    messages_for_llm (add c a) = Some msgs
    /\ last msgs (message_of a) = message_of a
    /\ msgs <> [].
Proof. exact (added_message_is_last c a). Qed.

Lemma latest_message_reaches_llm_witness :
  exists msgs,
    messages_for_llm
      (add Samples.zero_history (Assistant "2024-01-01T00:00:05" "hello"))
    = Some msgs
    /\ last msgs (message_of (Assistant "2024-01-01T00:00:05" "hello"))
       = message_of (Assistant "2024-01-01T00:00:05" "hello")
    /\ msgs <> [].
Proof.
  apply (latest_message_reaches_llm Samples.zero_history
           (Assistant "2024-01-01T00:00:05" "hello")).
  vm_compute. discriminate.
Defined.

Lemma init_messages cp p mh :
  Forall (fun m => role m = "system") (messages (init cp p mh)).
Proof.
  unfold init. cbn [messages].
  destruct (Text.truthy (if Text.truthy p then p else cp));
    repeat constructor.
Qed.

Lemma filter_system_messages ms :
  Forall (fun m => role m = "system") ms ->
  filter (fun m => negb (String.eqb (role m) "system")) ms = [].
Proof.
  induction 1 as [|m ms Hm _ IH]; [reflexivity|].
  cbn [filter]. rewrite Hm. cbn. exact IH.
Qed.

Lemma filter_additions adds :
  filter (fun m => negb (String.eqb (role m) "system")) (map message_of adds)
  = map message_of adds.
Proof.
  induction adds as [|a adds IH]; [reflexivity|].
  destruct a; cbn [map filter message_of role]; cbn; now rewrite IH.
Qed.

Lemma restore_additions clock adds : forall n c,
  map role_and_content
    (messages
       (restore clock n (map role_and_content (map message_of adds)) c))
  = map role_and_content (messages c)
    ++ map role_and_content (map message_of adds)
  /\ max_history
       (restore clock n (map role_and_content (map message_of adds)) c)
     = max_history c
  /\ system_prompt
       (restore clock n (map role_and_content (map message_of adds)) c)
     = system_prompt c.
Proof.
  induction adds as [|a adds IH]; intros n c.
  - cbn. now rewrite app_nil_r.
  - cbn [map restore].
    destruct a as [t x|t x];
      cbn [message_of role_and_content role content];
      match goal with
      | |- context [restore clock (S n) _ ?c'] =>
          destruct (IH (S n) c') as (Hm & Hh & Hp)
      end;
      rewrite Hm, Hh, Hp;
      cbn [add_message String.eqb add_user_message add_assistant_message
             append messages max_history system_prompt];
      cbn; rewrite map_app, <- app_assoc; repeat split.
Qed.

(** Saving a conversation and loading it back restores the prompt and
    every message with its role and content, in order; the time stamps
    are new and [max_history] is not kept: the loaded manager has the
    default, 20. *)
Theorem load_restores_saved_history cp p mh adds clock :
  map role_and_content
    (messages (load cp clock (save (add_all (init cp p mh) adds))))
  = map role_and_content (messages (add_all (init cp p mh) adds))
  /\ system_prompt (load cp clock (save (add_all (init cp p mh) adds)))
     = system_prompt (add_all (init cp p mh) adds)
  /\ max_history (load cp clock (save (add_all (init cp p mh) adds))) = 20.
Proof.
  destruct (messages_after_additions adds (init cp p mh)) as (Hm & _ & Hp).
  unfold load, save.
  cbn [saved_messages saved_system_prompt]. rewrite Hm, Hp.
  rewrite filter_app, (filter_system_messages _ (init_messages cp p mh)),
    filter_additions.
  cbn [app].
  assert (Hinit : init cp (system_prompt (init cp p mh)) 20
                  = {| system_prompt := system_prompt (init cp p mh);
                       max_history := 20;
                       messages := messages (init cp p mh) |}).
  { unfold init. cbn [system_prompt messages].
    destruct (Text.truthy p) eqn:Ep.
    - rewrite !Ep. reflexivity.
    - destruct (Text.truthy cp) eqn:Ec; rewrite ?Ec; reflexivity. }
  rewrite Hinit.
  match goal with
  | |- context [restore clock 0 _ ?c0] =>
      destruct (restore_additions clock adds 0 c0) as (Hr & Hh & Hs)
  end.
  fold role_and_content.
  rewrite Hr, Hh, Hs. cbn [messages max_history system_prompt].
  rewrite map_app. repeat split.
Qed.

(** [clear_history()] brings a manager back to the state in which it was
    constructed, and clearing twice is clearing once. *)
Theorem clear_history_resets cp p mh adds keep c :
  clear_history true (add_all (init cp p mh) adds) = init cp p mh
  /\ clear_history keep (clear_history keep c) = clear_history keep c
  /\ len (clear_history keep c) = 0%nat.
Proof.
  destruct (messages_after_additions adds (init cp p mh)) as (_ & Hh & Hp).
  repeat split.
  - unfold clear_history. rewrite Hh, Hp. reflexivity.
  - unfold clear_history, len. cbn [messages system_prompt].
    destruct (keep && Text.truthy (system_prompt c)); reflexivity.
Qed.

Lemma filter_role_additions r adds :
  (r = "user" \/ r = "assistant") ->
  map content
    (filter (fun m => String.eqb (role m) r) (map message_of adds))
  = if String.eqb r "user" then user_contents adds
    else assistant_contents adds.
Proof.
  intros [->| ->]; cbn [String.eqb];
    induction adds as [|a adds IH]; try reflexivity;
    destruct a; cbn [map filter message_of role user_contents
                       assistant_contents];
    cbn; cbn in IH; now rewrite IH.
Qed.

Lemma filter_role_system r ms :
  (r = "user" \/ r = "assistant") ->
  Forall (fun m => role m = "system") ms ->
  filter (fun m => String.eqb (role m) r) ms = [].
Proof.
  intros Hr. induction 1 as [|m ms Hm _ IH]; [reflexivity|].
  cbn [filter]. rewrite Hm.
  destruct Hr as [->| ->]; cbn; exact IH.
Qed.

Lemma contents_split adds :
  (length (user_contents adds) + length (assistant_contents adds))%nat
  = length adds.
Proof.
  induction adds as [|a adds IH]; [reflexivity|].
  destruct a; cbn [user_contents assistant_contents length]; lia.
Qed.

(** After any additions [user_messages] and [assistant_messages] are the
    contents given to [add_user_message] and to [add_assistant_message],
    each in the order of the calls; [len] counts every addition and never
    the system prompt, and equals the two counts of the summary added. *)
Theorem history_counts cp p mh adds :
  user_messages (add_all (init cp p mh) adds) = user_contents adds
  /\ assistant_messages (add_all (init cp p mh) adds)
     = assistant_contents adds
  /\ len (add_all (init cp p mh) adds) = length adds
  /\ (length (user_messages (add_all (init cp p mh) adds))
      + length (assistant_messages (add_all (init cp p mh) adds)))%nat
     = len (add_all (init cp p mh) adds).
Proof.
  destruct (messages_after_additions adds (init cp p mh)) as (Hm & _ & _).
  assert (Hu : user_messages (add_all (init cp p mh) adds)
               = user_contents adds).
  { unfold user_messages. rewrite Hm, filter_app.
    rewrite (filter_role_system "user" _ (or_introl eq_refl)
               (init_messages cp p mh)).
    cbn [app].
    exact (filter_role_additions "user" adds (or_introl eq_refl)). }
  assert (Ha : assistant_messages (add_all (init cp p mh) adds)
               = assistant_contents adds).
  { unfold assistant_messages. rewrite Hm, filter_app.
    rewrite (filter_role_system "assistant" _ (or_intror eq_refl)
               (init_messages cp p mh)).
    cbn [app].
    exact (filter_role_additions "assistant" adds (or_intror eq_refl)). }
  assert (Hl : len (add_all (init cp p mh) adds) = length adds).
  { unfold len. rewrite Hm, filter_app.
    rewrite (filter_system_messages _ (init_messages cp p mh)).
    cbn [app]. now rewrite filter_additions, length_map. }
  repeat split; try assumption.
  rewrite Hu, Ha, Hl. apply contents_split.
Qed.

(** With [max_history >= 1] and a system prompt, [messages_for_llm] is
    the system prompt followed by the latest [max_history] messages in
    the order in which they were added, so at most [max_history + 1]. *)
Theorem llm_window cp p mh adds :
  Text.truthy p = true ->
  1 <= mh ->
  exists msgs,
    messages_for_llm (add_all (init cp p mh) adds) = Some msgs
    /\ Z.of_nat (length msgs) <= mh + 1
    /\ hd_error msgs = Some (system_message p)
    /\ tl msgs
       = last_n (Nat.min (length adds) (Z.to_nat mh)) (map message_of adds).
Proof.
  intros Hp Hmh.
  exact (ConversationClaims.history_window cp p mh adds Hp Hmh).
Qed.

Lemma llm_window_witness :
  exists msgs,
    messages_for_llm
      (add_all (init "" "You are Nova." 2)
         [User "t1" "one"; Assistant "t2" "two"; User "t3" "three"])
    = Some msgs
    /\ Z.of_nat (length msgs) <= 2 + 1
    /\ hd_error msgs = Some (system_message "You are Nova.")
    /\ tl msgs
       = last_n (Nat.min 3 (Z.to_nat 2))
           (map message_of
              [User "t1" "one"; Assistant "t2" "two"; User "t3" "three"]).
Proof.
  apply (llm_window "" "You are Nova." 2
           [User "t1" "one"; Assistant "t2" "two"; User "t3" "three"]).
  - reflexivity.
  - lia.
Defined.

End ConversationExtras.

(* ================================================================== *)
(** ** Properties of the configuration *)
(* ================================================================== *)

Module ConfigExtras.
Import Config.

Local Open Scope string_scope.
Local Open Scope list_scope.

Lemma get_from_not_none keys : forall v default,
  is_none v = false -> is_none default = false ->
  is_none (get_from v keys default) = false.
Proof.
  induction keys as [|k keys IH]; intros v d Hv Hd; [exact Hv|].
  cbn [get_from]. destruct v; try exact Hd.
  destruct (is_none (dict_get items k)) eqn:E; [exact Hd|].
  apply IH; assumption.
Qed.

(** With a default other than [None], [get] never returns [None]: a key
    that is missing, a value that is [None] and a path that runs through
    something that is not a dictionary all give the default. *)
Theorem get_with_default_is_never_none config keys default :
  default <> VNone ->
  get config keys default <> VNone.
Proof.
  intros Hd.
  assert (H : is_none (get config keys default) = false).
  { apply get_from_not_none; [reflexivity|].
    destruct default; try reflexivity. congruence. }
  intros E. rewrite E in H. discriminate.
Qed.

Lemma get_with_default_is_never_none_witness :
  get [("audio", VDict [("sample_rate", VNone)])] ["audio"; "sample_rate"]
    (VInt 16000) <> VNone.
Proof.
  apply (get_with_default_is_never_none
           [("audio", VDict [("sample_rate", VNone)])]
           ["audio"; "sample_rate"] (VInt 16000)).
  discriminate.
Defined.

(** Looking up a path is looking up its first part and then the rest
    from the value found there; when the first part finds nothing, the
    result is the default. *)
Theorem get_follows_path config keys1 keys2 default :
  get config (keys1 ++ keys2) default
  = if is_none (get config keys1 VNone) then default
    else get_from (get config keys1 VNone) keys2 default.
Proof.
  unfold get.
  assert (H : forall v, is_none v = false ->
                        get_from v (keys1 ++ keys2) default
                        = if is_none (get_from v keys1 VNone) then default
                          else get_from (get_from v keys1 VNone) keys2
                                 default).
  { induction keys1 as [|k keys1 IH]; intros v Hv.
    - cbn [app get_from]. now rewrite Hv.
    - cbn [app get_from]. destruct v; try reflexivity.
      destruct (is_none (dict_get items k)) eqn:E; [reflexivity|].
      apply IH, E. }
  apply H. reflexivity.
Qed.

Lemma dict_get_set_same items key v : dict_get (dict_set items key v) key = v.
Proof.
  induction items as [|[k x] items IH]; cbn [dict_set dict_get].
  - now rewrite String.eqb_refl.
  - destruct (String.eqb k key) eqn:E; cbn [dict_get]; rewrite E;
      [reflexivity|exact IH].
Qed.

Lemma dict_get_set_other items key key' v :
  key' <> key -> dict_get (dict_set items key v) key' = dict_get items key'.
Proof.
  intros Hne. induction items as [|[k x] items IH]; cbn [dict_set dict_get].
  - destruct (String.eqb_spec key key'); [congruence|reflexivity].
  - destruct (String.eqb_spec k key) as [->|Hk]; cbn [dict_get].
    + destruct (String.eqb_spec key key'); [congruence|reflexivity].
    + destruct (String.eqb k key'); [reflexivity|exact IH].
Qed.

Lemma dict_get_app_other items key key' v :
  key' <> key -> dict_get (items ++ [(key, v)]) key' = dict_get items key'.
Proof.
  intros Hne. induction items as [|[k x] items IH]; cbn [app dict_get].
  - destruct (String.eqb_spec key key'); [congruence|reflexivity].
  - destruct (String.eqb k key'); [reflexivity|exact IH].
Qed.

Lemma dict_get_app_absent items key v :
  contains items key = false -> dict_get (items ++ [(key, v)]) key = v.
Proof.
  unfold contains. induction items as [|[k x] items IH];
    cbn [app dict_get existsb fst].
  - now rewrite String.eqb_refl.
  - destruct (String.eqb k key); cbn [orb]; [discriminate|exact IH].
Qed.

Lemma dict_get_without_same field items :
  dict_get (without field items) field = VNone.
Proof.
  induction items as [|[k x] items IH]; [reflexivity|].
  cbn [without filter fst]. destruct (String.eqb k field) eqn:E; cbn [negb].
  - exact IH.
  - cbn [dict_get]. rewrite E. exact IH.
Qed.

Lemma dict_get_without_other field key items :
  key <> field -> dict_get (without field items) key = dict_get items key.
Proof.
  intros Hne. induction items as [|[k x] items IH]; [reflexivity|].
  cbn [without filter fst dict_get].
  destruct (String.eqb_spec k field) as [->|Hk]; cbn [negb].
  - destruct (String.eqb_spec field key); [congruence|exact IH].
  - cbn [dict_get]. destruct (String.eqb k key); [reflexivity|exact IH].
Qed.

Lemma contains_absent items key :
  contains items key = false -> dict_get items key = VNone.
Proof.
  unfold contains. induction items as [|[k x] items IH];
    cbn [existsb dict_get fst]; [reflexivity|].
  destruct (String.eqb k key); cbn [orb]; [discriminate|exact IH].
Qed.

(** What [hide] does to the look-ups. *)
Lemma hide_spec config section field pub :
  hide config section field = Some pub ->
  (forall keys d, get pub (section :: field :: keys) d = d)
  /\ (forall s keys d, s <> section ->
        get pub (s :: keys) d = get config (s :: keys) d)
  /\ (forall f keys d, f <> field ->
        get pub (section :: f :: keys) d
        = get config (section :: f :: keys) d).
Proof.
  unfold hide. destruct (contains config section) eqn:Ec.
  - destruct (dict_get config section) as [| | | | | |items] eqn:Es;
      try discriminate.
    intros H. inversion H; subst. unfold get. repeat split.
    + intros keys d. cbn [get_from]. rewrite dict_get_set_same.
      cbn [is_none get_from]. now rewrite dict_get_without_same.
    + intros s keys d Hs. cbn [get_from].
      now rewrite dict_get_set_other by exact Hs.
    + intros f keys d Hf. cbn [get_from].
      rewrite dict_get_set_same, Es. cbn [is_none get_from].
      now rewrite dict_get_without_other by exact Hf.
  - intros H. inversion H; subst. unfold get. repeat split.
    intros keys d. cbn [get_from].
    now rewrite (contains_absent _ _ Ec).
Qed.

Lemma to_dict_spec config pub :
  to_dict config = Some pub ->
  (forall keys d, get pub ("openai" :: "api_key" :: keys) d = d)
  /\ (forall keys d, get pub ("porcupine" :: "access_key" :: keys) d = d)
  /\ (forall s keys d, s <> "openai" -> s <> "porcupine" ->
        get pub (s :: keys) d = get config (s :: keys) d)
  /\ (forall f keys d, f <> "api_key" ->
        get pub ("openai" :: f :: keys) d
        = get config ("openai" :: f :: keys) d)
  /\ (forall f keys d, f <> "access_key" ->
        get pub ("porcupine" :: f :: keys) d
        = get config ("porcupine" :: f :: keys) d).
Proof.
  unfold to_dict.
  destruct (hide config "openai" "api_key") as [c1|] eqn:E1; [|discriminate].
  intros E2.
  destruct (hide_spec _ _ _ _ E1) as (A1 & A2 & A3).
  destruct (hide_spec _ _ _ _ E2) as (B1 & B2 & B3).
  repeat split.
  - intros keys d. rewrite B2 by discriminate. apply A1.
  - exact B1.
  - intros s keys d H1 H2. rewrite B2 by exact H2. apply A2, H1.
  - intros f keys d Hf. rewrite B2 by discriminate. apply A3, Hf.
  - intros f keys d Hf. rewrite B3 by exact Hf. apply A2. discriminate.
Qed.

(** [to_dict] keeps the secrets out and everything else in: in its
    result the OpenAI API key and the Porcupine access key cannot be
    looked up any more, and every other setting, in those two sections
    and in all others, is found as in the configuration itself. *)
Theorem to_dict_hides_only_secrets config pub :
  to_dict config = Some pub ->
  (forall keys d, get pub ("openai" :: "api_key" :: keys) d = d)
  /\ (forall keys d, get pub ("porcupine" :: "access_key" :: keys) d = d)
  /\ (forall s keys d, s <> "openai" -> s <> "porcupine" ->
        get pub (s :: keys) d = get config (s :: keys) d)
  /\ (forall f keys d, f <> "api_key" ->
        get pub ("openai" :: f :: keys) d
        = get config ("openai" :: f :: keys) d)
  /\ (forall f keys d, f <> "access_key" ->
        get pub ("porcupine" :: f :: keys) d
        = get config ("porcupine" :: f :: keys) d).
Proof. exact (to_dict_spec config pub). Qed.

Lemma to_dict_hides_only_secrets_witness :
  get [("openai", VDict [("model", VStr "gpt-4o-mini")]);
       ("porcupine", VDict [])]
    ["openai"; "api_key"] (VStr "hidden")
  = VStr "hidden".
Proof.
  refine (proj1 (to_dict_hides_only_secrets
                   [("openai", VDict [("model", VStr "gpt-4o-mini");
                                      ("api_key", VStr "sk-123")]);
                    ("porcupine", VDict [("access_key", VStr "pv-456")])]
                   _ _) [] (VStr "hidden")).
  reflexivity.
Defined.

Lemma set_in_section_spec config section field v config' :
  set_in_section config section field v = Some config' ->
  (forall d, get config' [section; field] d = (if is_none v then d else v))
  /\ (forall s keys d, s <> section ->
        get config' (s :: keys) d = get config (s :: keys) d)
  /\ (forall f keys d, f <> field ->
        get config' (section :: f :: keys) d
        = get config (section :: f :: keys) d).
Proof.
  unfold set_in_section. destruct (contains config section) eqn:Ec.
  - destruct (dict_get config section) as [| | | | | |items] eqn:Es;
      try discriminate.
    intros H. inversion H; subst. unfold get. repeat split.
    + intros d. cbn [get_from]. rewrite dict_get_set_same.
      cbn [is_none get_from]. now rewrite dict_get_set_same.
    + intros s keys d Hs. cbn [get_from].
      now rewrite dict_get_set_other by exact Hs.
    + intros f keys d Hf. cbn [get_from].
      rewrite dict_get_set_same, Es. cbn [is_none get_from].
      now rewrite dict_get_set_other by exact Hf.
  - intros H. inversion H; subst. unfold get. repeat split.
    + intros d. cbn [get_from]. rewrite (dict_get_app_absent _ _ _ Ec).
      cbn [is_none get_from dict_get]. now rewrite String.eqb_refl.
    + intros s keys d Hs. cbn [get_from].
      now rewrite dict_get_app_other by exact Hs.
    + intros f keys d Hf. cbn [get_from].
      rewrite (dict_get_app_absent _ _ _ Ec), (contains_absent _ _ Ec).
      cbn [is_none get_from dict_get].
      destruct (String.eqb_spec field f); [congruence|reflexivity].
Qed.

(** A key given in the environment is the one the configuration
    answers with, whatever the file said; the settings of the other
    sections are untouched, and [to_dict] still keeps both keys out. *)
Theorem environment_key_wins openai_key porcupine_key config config' :
  apply_env_overrides openai_key porcupine_key config = Some config' ->
  (Text.truthy openai_key = true ->
   openai_api_key config' = VStr openai_key)
  /\ (Text.truthy porcupine_key = true ->
      porcupine_access_key config' = VStr porcupine_key)
  /\ (forall s keys d, s <> "openai" -> s <> "porcupine" ->
        get config' (s :: keys) d = get config (s :: keys) d)
  /\ (forall pub, to_dict config' = Some pub ->
        openai_api_key pub = VNone /\ porcupine_access_key pub = VNone).
Proof.
  unfold apply_env_overrides, openai_api_key, porcupine_access_key.
  intros H.
  destruct (Text.truthy openai_key) eqn:Eo.
  - destruct (set_in_section config "openai" "api_key" (VStr openai_key))
      as [c1|] eqn:E1; [|discriminate].
    destruct (set_in_section_spec _ _ _ _ _ E1) as (A1 & A2 & A3).
    destruct (Text.truthy porcupine_key) eqn:Ep.
    + destruct (set_in_section_spec _ _ _ _ _ H) as (B1 & B2 & B3).
      repeat split.
      * intros _. rewrite B2 by discriminate. apply A1.
      * intros _. apply B1.
      * intros s keys d H1 H2. rewrite B2 by exact H2. apply A2, H1.
      * apply (to_dict_spec _ _ H0).
      * apply (to_dict_spec _ _ H0).
    + inversion H; subst. repeat split.
      * intros _. apply A1.
      * discriminate.
      * intros s keys d H1 H2. apply A2, H1.
      * apply (to_dict_spec _ _ H0).
      * apply (to_dict_spec _ _ H0).
  - destruct (Text.truthy porcupine_key) eqn:Ep.
    + destruct (set_in_section_spec _ _ _ _ _ H) as (B1 & B2 & B3).
      repeat split.
      * discriminate.
      * intros _. apply B1.
      * intros s keys d H1 H2. apply B2, H2.
      * apply (to_dict_spec _ _ H0).
      * apply (to_dict_spec _ _ H0).
    + inversion H; subst. repeat split; try discriminate.
      * apply (to_dict_spec _ _ H0).
      * apply (to_dict_spec _ _ H0).
Qed.

Lemma environment_key_wins_witness :
  openai_api_key
    [("openai", VDict [("model", VStr "gpt-4o-mini");
                       ("api_key", VStr "sk-env")])]
  = VStr "sk-env".
Proof.
  refine (proj1 (environment_key_wins "sk-env" ""
                   [("openai", VDict [("model", VStr "gpt-4o-mini");
                                      ("api_key", VStr "sk-file")])]
                   _ _) _);
    reflexivity.
Defined.

End ConfigExtras.

(* ================================================================== *)
(** ** Further properties of the turn handler *)
(* ================================================================== *)

Module AssistantExtras.
Import Assistant.

Local Open Scope string_scope.
Local Open Scope list_scope.

Lemma spoken_after_speak w t text lang wait :
  Tts.spoken (Tts.speak w t text lang wait) = Tts.spoken t ++ [text].
Proof.
  unfold Tts.speak, Tts.spoken.
  cbn [Tts.has_pygame Tts.log_utterance].
  destruct (Tts.has_pygame t); cbn [negb];
    [destruct (Tts.synth_ok _); cbn [negb];
     [destruct (Tts.play_raises _);
      [|destruct wait; [destruct (Tts.interrupted _)|]]|]|];
    cbn [Tts.utterances Tts.set_flags Tts.log_utterance];
    rewrite map_app; reflexivity.
Qed.

(** An exit phrase, in any case and with any white space around it, ends
    the assistant: it says goodbye once, the main-loop flag is cleared and
    playback is stopped; the phrase is not added to the conversation. *)
Theorem exit_phrase_shuts_down e a wav r text lang :
  Recorder.record (recorder a) max_duration_ms (mic e)
  = Recorder.Returned (Some wav) r ->
  transcribe e wav = (text, lang) ->
  (2 <= String.length (Text.strip text))%nat ->
  Text.mem (Text.strip (Text.lower text)) exit_commands = true ->
  exists a' goodbye,
    process_speech e a = Finished a'
    /\ running a' = false
    /\ conversation a' = conversation a
    /\ Tts.stop_event (tts a') = true
    /\ Tts.music_busy (tts a') = false
    /\ Tts.spoken (tts a') = Tts.spoken (tts a) ++ [goodbye].
Proof.
  intros Hr Ht Hlen Hex.
  assert (Htr : Text.truthy text = true).
  { destruct text; [cbn in Hlen; lia|reflexivity]. }
  unfold process_speech. cbn [recorder set_listening]. rewrite Hr, Ht, Htr.
  cbn [negb orb].
  replace (String.length (Text.strip text) <? 2)%nat with false
    by (symmetry; apply Nat.ltb_ge; exact Hlen).
  rewrite Hex. unfold say_goodbye.
  destruct (Text.startswith "fr" lang);
    eexists; eexists; (split; [reflexivity|]);
    unfold stop;
    cbn [tts set_running set_tts set_listening set_recorder wake_word
           conversation running];
    (destruct (wake_word a);
     cbn [running conversation tts set_wake_word set_tts set_running];
     repeat split; apply spoken_after_speak).
Qed.

Lemma exit_phrase_shuts_down_witness :
  exists a' goodbye,
    process_speech (Samples.turn_saying "  Au Revoir ") Samples.assistant0
    = Finished a'
    /\ running a' = false
    /\ conversation a' = conversation Samples.assistant0
    /\ Tts.stop_event (tts a') = true
    /\ Tts.music_busy (tts a') = false
    /\ Tts.spoken (tts a') = Tts.spoken (tts Samples.assistant0) ++ [goodbye].
Proof.
  eapply (exit_phrase_shuts_down (Samples.turn_saying "  Au Revoir ")
            Samples.assistant0);
    try (vm_compute; reflexivity).
  vm_compute. lia.
Defined.

(** A transcription that is empty or shorter than two characters once
    stripped ends the turn with nothing added to the conversation,
    nothing spoken and the loop still running. *)
Theorem unintelligible_turn_changes_nothing e a wav r text lang :
  Recorder.record (recorder a) max_duration_ms (mic e)
  = Recorder.Returned (Some wav) r ->
  transcribe e wav = (text, lang) ->
  (String.length (Text.strip text) < 2)%nat ->
  process_speech e a = Finished (set_listening false (set_recorder r a))
  /\ forall a', process_speech e a = Finished a' ->
       conversation a' = conversation a
       /\ tts a' = tts a
       /\ running a' = running a
       /\ wake_word a' = wake_word a.
Proof.
  intros Hr Ht Hlen.
  assert (E : process_speech e a
              = Finished (set_listening false (set_recorder r a))).
  { unfold process_speech. cbn [recorder set_listening]. rewrite Hr, Ht.
    replace (String.length (Text.strip text) <? 2)%nat with true
      by (symmetry; apply Nat.ltb_lt; exact Hlen).
    rewrite orb_true_r. reflexivity. }
  split; [exact E|].
  intros a' H. rewrite E in H. inversion H; subst. repeat split.
Qed.

Lemma unintelligible_turn_changes_nothing_witness :
  process_speech (Samples.turn_saying " a ") Samples.assistant0
  = Finished
      (set_listening false
         (set_recorder
            (Recorder.set_buffer
               (map Recorder.audio_bytes
                  (Samples.speech20 ++ firstn 30 Samples.silence35))
               (Recorder.open_stream Samples.recorder900))
            Samples.assistant0)).
Proof.
  refine (proj1 (unintelligible_turn_changes_nothing
                   (Samples.turn_saying " a ") Samples.assistant0 _ _ " a "
                   "en" _ _ _)).
  - vm_compute. reflexivity.
  - reflexivity.
  - vm_compute. lia.
Defined.

(** An ordinary turn: the language model is asked with a list of
    messages that ends with the user's text, and its whole reply is
    stored after the user's text, each of the two with the time at which
    it is stored, and spoken once, in the language of the transcription;
    nothing else is added or spoken and the loop keeps running. *)
Theorem ordinary_turn_stores_and_speaks_reply e a wav r text lang :
  Recorder.record (recorder a) max_duration_ms (mic e)
  = Recorder.Returned (Some wav) r ->
  transcribe e wav = (text, lang) ->
  (2 <= String.length (Text.strip text))%nat ->
  Text.mem (Text.strip (Text.lower text)) exit_commands = false ->
  Text.mem (Text.strip (Text.lower text)) stop_speaking_commands = false ->
  (0 <= Conversation.max_history (conversation a))%Z ->
  exists a' earlier,
    process_speech e a = Finished a'
    /\ Conversation.messages_for_llm
         (Conversation.add_user_message (now e) text (conversation a))
       = Some (earlier
               ++ [Conversation.message_of (Conversation.User (now e) text)])
    /\ Conversation.messages (conversation a')
       = Conversation.messages (conversation a)
         ++ [Conversation.message_of (Conversation.User (now e) text);
             Conversation.message_of
               (Conversation.Assistant (now_reply e)
                  (Text.join
                     (stream_chat e
                        (earlier
                         ++ [Conversation.message_of
                               (Conversation.User (now e) text)]))))]
    /\ Tts.utterances (tts a')
       = Tts.utterances (tts a)
         ++ [(lang,
              Text.join
                (stream_chat e
                   (earlier
                    ++ [Conversation.message_of
                          (Conversation.User (now e) text)])))]
    /\ running a' = running a.
Proof.
  intros Hr Ht Hlen Hex Hst Hmh.
  assert (Htr : Text.truthy text = true).
  { destruct text; [cbn in Hlen; lia|reflexivity]. }
  destruct (ConversationExtras.added_message_is_last (conversation a)
              (Conversation.User (now e) text) Hmh)
    as (asked & Hasked & Hlast & Hne).
  cbn [Conversation.add] in Hasked.
  assert (Hshape : asked
                   = removelast asked
                     ++ [Conversation.message_of
                           (Conversation.User (now e) text)]).
  { rewrite <- Hlast. now apply app_removelast_last. }
  rewrite Hshape in Hasked.
  unfold process_speech. cbn [recorder set_listening]. rewrite Hr, Ht, Htr.
  cbn [negb orb].
  replace (String.length (Text.strip text) <? 2)%nat with false
    by (symmetry; apply Nat.ltb_ge; exact Hlen).
  rewrite Hex, Hst.
  cbn [conversation set_listening set_recorder set_conversation].
  rewrite Hasked.
  eexists. exists (removelast asked). split; [reflexivity|].
  split; [reflexivity|].
  cbn [conversation tts running set_tts set_conversation set_listening
         set_recorder].
  repeat split.
  - cbn [Conversation.add_assistant_message Conversation.add_user_message
           Conversation.append Conversation.messages Conversation.message_of].
    now rewrite <- app_assoc.
  - unfold Tts.speak. cbn [Tts.has_pygame Tts.log_utterance].
    destruct (Tts.has_pygame (tts a)); cbn [negb];
      [destruct (Tts.synth_ok _); cbn [negb];
       [destruct (Tts.play_raises _); [|destruct (Tts.interrupted _)]|]|];
      reflexivity.
Qed.

Lemma ordinary_turn_stores_and_speaks_reply_witness :
  exists a' earlier,
    process_speech (Samples.turn_saying "hello there") Samples.assistant0
    = Finished a'
    /\ Conversation.messages_for_llm
         (Conversation.add_user_message "2024-01-01T00:00:00" "hello there"
            (conversation Samples.assistant0))
       = Some (earlier
               ++ [Conversation.message_of
                     (Conversation.User "2024-01-01T00:00:00"
                        "hello there")])
    /\ Conversation.messages (conversation a')
       = Conversation.messages (conversation Samples.assistant0)
         ++ [Conversation.message_of
               (Conversation.User "2024-01-01T00:00:00" "hello there");
             Conversation.message_of
               (Conversation.Assistant "2024-01-01T00:00:03" "Sure. Done.")]
    /\ Tts.utterances (tts a')
       = Tts.utterances (tts Samples.assistant0) ++ [("en", "Sure. Done.")]
    /\ running a' = running Samples.assistant0.
Proof.
  eapply (ordinary_turn_stores_and_speaks_reply
            (Samples.turn_saying "hello there") Samples.assistant0);
    try (vm_compute; reflexivity).
  - vm_compute. lia.
  - vm_compute. discriminate.
Defined.

Lemma device_error_turn e a :
  mic e = Recorder.DeviceError ->
  Recorder.is_recording (recorder a) = false ->
  Recorder.frame_duration_ms (recorder a) <> 0%Z ->
  exists a',
    process_speech e a = Finished a'
    /\ running a' = running a
    /\ conversation a' = conversation a
    /\ tts a' = tts a
    /\ Recorder.is_recording (recorder a') = false
    /\ Recorder.frame_duration_ms (recorder a')
       = Recorder.frame_duration_ms (recorder a)
    /\ Recorder.streams_opened (recorder a')
       = Recorder.streams_opened (recorder a).
Proof.
  intros Hm Hrec Hfd.
  unfold process_speech, Recorder.record.
  cbn [recorder set_listening]. rewrite Hrec, Hm.
  change (Recorder.frame_duration_ms
            (Recorder.set_buffer [] (Recorder.set_recording true (recorder a))))
    with (Recorder.frame_duration_ms (recorder a)).
  destruct (Z.eqb_spec (Recorder.frame_duration_ms (recorder a)) 0);
    [contradiction|].
  eexists. split; [reflexivity|]. repeat split.
Qed.

(** A turn in which the microphone cannot be opened is given up and
    nothing more: however many such turns follow one another, the loop is
    still running and waits for the next line, with the conversation and
    the playback sink as they were and no stream opened. *)
Theorem device_failures_do_not_end_loop a turns :
  running a = true ->
  Recorder.is_recording (recorder a) = false ->
  Recorder.frame_duration_ms (recorder a) <> 0%Z ->
  Forall (fun e => mic e = Recorder.DeviceError) turns ->
  exists a',
    push_to_talk a turns = Suspended a'
    /\ running a' = true
    /\ conversation a' = conversation a
    /\ tts a' = tts a
    /\ Recorder.streams_opened (recorder a')
       = Recorder.streams_opened (recorder a)
    /\ turns_served a turns = length turns.
Proof.
  intros Hrun Hrec Hfd Hall. revert a Hrun Hrec Hfd.
  induction Hall as [|e turns He _ IH]; intros a Hrun Hrec Hfd.
  - exists a. cbn [push_to_talk turns_served length]. rewrite Hrun.
    repeat split.
  - destruct (device_error_turn e a He Hrec Hfd)
      as (a1 & E & H1 & H2 & H3 & H4 & H5 & H6).
    destruct (IH a1) as (a' & E' & R1 & R2 & R3 & R4 & R5).
    + now rewrite H1.
    + exact H4.
    + now rewrite H5.
    + exists a'. cbn [push_to_talk turns_served length].
      rewrite Hrun, E. repeat split; try congruence.
Qed.

Lemma device_failures_do_not_end_loop_witness :
  exists a',
    push_to_talk Samples.assistant0
      [MoreSamples.turn_without_microphone;
       MoreSamples.turn_without_microphone]
    = Suspended a'
    /\ running a' = true
    /\ conversation a' = conversation Samples.assistant0
    /\ tts a' = tts Samples.assistant0
    /\ Recorder.streams_opened (recorder a')
       = Recorder.streams_opened (recorder Samples.assistant0)
    /\ turns_served Samples.assistant0
         [MoreSamples.turn_without_microphone;
          MoreSamples.turn_without_microphone]
       = 2%nat.
Proof.
  apply (device_failures_do_not_end_loop Samples.assistant0
           [MoreSamples.turn_without_microphone;
            MoreSamples.turn_without_microphone]).
  - reflexivity.
  - reflexivity.
  - discriminate.
  - repeat constructor.
Defined.

Lemma stop_twice a : stop (stop a) = stop a.
Proof. destruct a as [run lis rec t c [d|]]; reflexivity. Qed.

Lemma cleanup_after_stop a : cleanup (stop a) = cleanup a.
Proof. unfold cleanup. now rewrite stop_twice. Qed.

(** [stop] and [cleanup] can be repeated without further effect, and
    once [stop] has been called the loop does not start another turn: it
    leaves through [cleanup] whatever is entered. *)
Theorem stopped_assistant_serves_no_turn a turns :
  stop (stop a) = stop a
  /\ cleanup (cleanup a) = cleanup a
  /\ push_to_talk (stop a) turns = Finished (cleanup a)
  /\ turns_served (stop a) turns = 0%nat.
Proof.
  assert (Hr : running (stop a) = false).
  { unfold stop. cbn [tts wake_word set_running set_tts].
    destruct (wake_word a); reflexivity. }
  repeat split.
  - apply stop_twice.
  - destruct a as [run lis rec t c [d|]]; reflexivity.
  - rewrite <- cleanup_after_stop.
    destruct turns; cbn [push_to_talk]; now rewrite Hr.
  - destruct turns; cbn [turns_served]; [reflexivity|now rewrite Hr].
Qed.

End AssistantExtras.

(* ================================================================== *)
(** ** The frame counts against the source's float arithmetic *)
(* ================================================================== *)

Module DurationFacts.
Import Durations.

(** The durations of the source's defaults and of the assistant. *)
Lemma default_durations :
  milliseconds (literal 1500) = Some 1500
  /\ frames (literal 1500) 30 = Some 50
  /\ milliseconds (literal 15000) = Some 15000
  /\ frames (literal 15000) 30 = Some 500
  /\ milliseconds (literal 30000) = Some 30000
  /\ frames (literal 30000) 30 = Some 1000
  /\ milliseconds (literal 900) = Some 900
  /\ frames (literal 900) 30 = Some 30.
Proof. vm_compute. repeat split. Qed.

(** Durations whose product with 1000 falls just below a whole number:
    the truncated product is one millisecond short of the decimal, and the
    source's frame count is its quotient. *)
Lemma inexact_durations :
  milliseconds (literal 2010) = Some 2009
  /\ frames (literal 2010) 30 = Some 66
  /\ Recorder.frames_for_silence (Recorder.init 16000 2009) = 66
  /\ milliseconds (literal 8190) = Some 8189
  /\ frames (literal 8190) 30 = Some 272
  /\ Recorder.max_frames Samples.recorder900 8189 = 272.
Proof. vm_compute. repeat split. Qed.

(** For 30 ms frames and every duration from 0 to 30 s in steps of 10 ms,
    and for 10 ms and 20 ms frames up to 10 s, the source's
    [int(seconds * 1000 / frame_duration_ms)] is [Z.quot] of
    [int(seconds * 1000)] by the frame duration. *)
Lemma frames_are_quotients :
  all_multiples 10 31 (agrees 30) = true
  /\ all_multiples 10 11 (agrees 20) = true
  /\ all_multiples 10 11 (agrees 10) = true.
Proof. vm_compute. repeat split. Qed.

End DurationFacts.
